(** * The employee console of [script.js]: model and properties

    [script.js] is the browser script of an administrative console: it
    loads employees and roles from a REST backend, renders one card per
    employee, and lets the operator create an employee and assign a role.

    The development embeds the script function by function:
    - the values the script reads from parsed JSON are records whose
      optional properties are [Field]s ([Undefined], [Null] or a value);
    - the page (the seven elements the script looks up, the timer queue of
      [setTimeout], the clock, the requests handed to [fetch] and the
      console) is an explicit [Page] record threaded through a small
      state-and-exception monad [M];
    - an [async] handler is split at its [await]: the part run by the click
      and the part run when the request settles, which receives the
      [Outcome] of the request.

    Strings are sequences of code units below 256, so [trim] knows the
    white space of that range only.  The HTML parser of the browser is not
    modelled: markup written by the script is parsed by construction, each
    card fragment giving one element whose [id] attribute is the key that
    the template interpolates (values interpolated into markup are taken
    free of markup of their own). *)

From Stdlib Require Import String Ascii List Bool Arith NArith Lia.
Import ListNotations.
Open Scope string_scope.

(** ** Strings *)

Definition nl : string := String "010"%char EmptyString.
Definition dq : string := String "034"%char EmptyString.

Fixpoint spaces (n : nat) : string :=
  match n with
  | 0 => EmptyString
  | S k => String " "%char (spaces k)
  end.

(** [Array.prototype.join('')]. *)
Definition join (parts : list string) : string :=
  fold_right append EmptyString parts.

(** White space and line terminators of [String.prototype.trim] among the
    code units below 256: TAB, LF, VT, FF, CR, SP and NBSP. *)
Definition is_space (c : ascii) : bool :=
  let n := nat_of_ascii c in
  ((9 <=? n)%nat && (n <=? 13)%nat) || (n =? 32)%nat || (n =? 160)%nat.

Fixpoint trimStart (s : string) : string :=
  match s with
  | EmptyString => EmptyString
  | String c s' => if is_space c then trimStart s' else s
  end.

Fixpoint trimEnd (s : string) : string :=
  match s with
  | EmptyString => EmptyString
  | String c s' =>
      match trimEnd s' with
      | EmptyString => if is_space c then EmptyString else String c EmptyString
      | r => String c r
      end
  end.

Definition trim (s : string) : string := trimEnd (trimStart s).

(** [needle] occurs in [hay]. *)
Definition Contains (needle hay : string) : Prop :=
  exists pre post, hay = pre ++ needle ++ post.

(** [s] is a prefix of [t]. *)
Definition Starts (s t : string) : Prop := exists post, t = s ++ post.

(** ** Values read from parsed JSON *)

Inductive Field (A : Type) : Type :=
| Undefined
| Null
| Value (a : A).
Arguments Undefined {A}.
Arguments Null {A}.
Arguments Value {A} a.

Record Course := { title : string }.

Record Role := { role_id : string; role_name : string }.

(** [employee_id] and [name] hold what string conversion gives for the
    property, which is how every use in the script reads them. *)
Record Employee := {
  employee_id : string;
  name : string;
  current_role : Field Role;
  assigned_courses : Field (list Course)
}.

(** The object of a mutation response: the [error] property read on a
    non-success status and the employee properties read on success.  The
    parsed body itself is a [Field Body]: [response.json()] may give the
    JSON value [null], which has no properties. *)
Record Body := { error : Field string; employee : Employee }.

(** ** Exceptions *)

Inductive Exn :=
| Error (msg : string)
| TypeError (msg : string)
| SyntaxError (msg : string).

Definition message (e : Exn) : string :=
  match e with
  | Error m | TypeError m | SyntaxError m => m
  end.

(** The message of the [TypeError] of a property read on [undefined] or
    [null] (the wording of V8). *)
Definition cannot_read (base prop : string) : Exn :=
  TypeError ("Cannot read properties of " ++ base ++ " (reading '" ++ prop ++ "')").

Inductive Completion (A : Type) : Type :=
| Normal (a : A)
| Throw (e : Exn).
Arguments Normal {A} a.
Arguments Throw {A} e.

(** ** Renderer *)

Definition card_key (id : string) : string := "employee-card-" ++ id.

Definition course_item (c : Course) : string := "<li>" ++ title c ++ "</li>".

(** [emp.current_role ? emp.current_role.name : 'Not Assigned'] *)
Definition role_text (r : Field Role) : string :=
  match r with
  | Value role => role_name role
  | Undefined | Null => "Not Assigned"
  end.

(** [cs.length > 0 ? cs.map(c => `<li>${c.title}</li>`).join('') : '<li>None</li>'] *)
Definition courses_markup (cs : list Course) : string :=
  if (0 <? List.length cs)%nat then join (map course_item cs) else "<li>None</li>".

Definition card_template (emp : Employee) (cs : list Course) : string :=
  nl ++ spaces 12 ++ "<div class=" ++ dq ++ "employee-card" ++ dq
     ++ " id=" ++ dq ++ card_key (employee_id emp) ++ dq ++ ">" ++
  nl ++ spaces 16 ++ "<p><strong>Name:</strong> " ++ name emp
     ++ " (ID: " ++ employee_id emp ++ ")</p>" ++
  nl ++ spaces 16 ++ "<p><strong>Current Role:</strong> "
     ++ role_text (current_role emp) ++ "</p>" ++
  nl ++ spaces 16 ++ "<p><strong>Assigned Courses:</strong></p>" ++
  nl ++ spaces 16 ++ "<ul>" ++
  nl ++ spaces 20 ++ courses_markup cs ++
  nl ++ spaces 16 ++ "</ul>" ++
  nl ++ spaces 12 ++ "</div>" ++
  nl ++ spaces 8.

(** [renderEmployeeCard(emp)]: the template reads
    [emp.assigned_courses.length] without a guard. *)
Definition renderEmployeeCard (emp : Employee) : Completion string :=
  match assigned_courses emp with
  | Undefined => Throw (cannot_read "undefined" "length")
  | Null => Throw (cannot_read "null" "length")
  | Value cs => Normal (card_template emp cs)
  end.

(** ** The page *)

Record Button := { disabled : bool; label : string }.

Record OptionEl := { value : string; text : string }.

(** A single-selection drop-down: [selectedIndex] is [None] for -1. *)
Record Select := { options : list OptionEl; selectedIndex : option nat }.

(** A card element of the list: [handle] is the identity of the element
    (what a timer closure keeps), [elem_id] its id attribute, [first_p] the text
    of its first paragraph, [outerHTML] the markup it was parsed from and
    [updated] whether its class list holds ['updated']. *)
Record CardEl := {
  handle : nat;
  elem_id : string;
  first_p : string;
  outerHTML : string;
  updated : bool
}.

Inductive Node :=
| Paragraph (color : option string) (txt : string)
| CardNode (c : CardEl).

Record MessageArea := { textContent : string; color : string }.

Inductive TimerAction :=
| ClearMessage
| RemoveUpdated (h : nat).

Record Timer := { due : N; action : TimerAction }.

Inductive Request :=
| GetEmployees
| GetRoles
| PostEmployee (new_name : string)
| PutAssignRole (employeeId roleId : string).

Record Page := {
  employeeSelect : Select;
  roleSelect : Select;
  assignBtn : Button;
  employeeListDiv : list Node;
  newEmployeeNameInput : string;
  createEmployeeBtn : Button;
  messageArea : MessageArea;
  timers : list Timer;
  now : N;
  next_handle : nat;
  sent : list Request;
  console : list Exn
}.

Definition with_employeeSelect (v : Select) (p : Page) : Page :=
  {| employeeSelect := v; roleSelect := roleSelect p; assignBtn := assignBtn p;
     employeeListDiv := employeeListDiv p;
     newEmployeeNameInput := newEmployeeNameInput p;
     createEmployeeBtn := createEmployeeBtn p; messageArea := messageArea p;
     timers := timers p; now := now p; next_handle := next_handle p;
     sent := sent p; console := console p |}.

Definition with_roleSelect (v : Select) (p : Page) : Page :=
  {| employeeSelect := employeeSelect p; roleSelect := v; assignBtn := assignBtn p;
     employeeListDiv := employeeListDiv p;
     newEmployeeNameInput := newEmployeeNameInput p;
     createEmployeeBtn := createEmployeeBtn p; messageArea := messageArea p;
     timers := timers p; now := now p; next_handle := next_handle p;
     sent := sent p; console := console p |}.

Definition with_assignBtn (v : Button) (p : Page) : Page :=
  {| employeeSelect := employeeSelect p; roleSelect := roleSelect p; assignBtn := v;
     employeeListDiv := employeeListDiv p;
     newEmployeeNameInput := newEmployeeNameInput p;
     createEmployeeBtn := createEmployeeBtn p; messageArea := messageArea p;
     timers := timers p; now := now p; next_handle := next_handle p;
     sent := sent p; console := console p |}.

Definition with_employeeListDiv (v : list Node) (p : Page) : Page :=
  {| employeeSelect := employeeSelect p; roleSelect := roleSelect p;
     assignBtn := assignBtn p; employeeListDiv := v;
     newEmployeeNameInput := newEmployeeNameInput p;
     createEmployeeBtn := createEmployeeBtn p; messageArea := messageArea p;
     timers := timers p; now := now p; next_handle := next_handle p;
     sent := sent p; console := console p |}.

Definition with_newEmployeeNameInput (v : string) (p : Page) : Page :=
  {| employeeSelect := employeeSelect p; roleSelect := roleSelect p;
     assignBtn := assignBtn p; employeeListDiv := employeeListDiv p;
     newEmployeeNameInput := v;
     createEmployeeBtn := createEmployeeBtn p; messageArea := messageArea p;
     timers := timers p; now := now p; next_handle := next_handle p;
     sent := sent p; console := console p |}.

Definition with_createEmployeeBtn (v : Button) (p : Page) : Page :=
  {| employeeSelect := employeeSelect p; roleSelect := roleSelect p;
     assignBtn := assignBtn p; employeeListDiv := employeeListDiv p;
     newEmployeeNameInput := newEmployeeNameInput p;
     createEmployeeBtn := v; messageArea := messageArea p;
     timers := timers p; now := now p; next_handle := next_handle p;
     sent := sent p; console := console p |}.

Definition with_messageArea (v : MessageArea) (p : Page) : Page :=
  {| employeeSelect := employeeSelect p; roleSelect := roleSelect p;
     assignBtn := assignBtn p; employeeListDiv := employeeListDiv p;
     newEmployeeNameInput := newEmployeeNameInput p;
     createEmployeeBtn := createEmployeeBtn p; messageArea := v;
     timers := timers p; now := now p; next_handle := next_handle p;
     sent := sent p; console := console p |}.

Definition with_timers (v : list Timer) (p : Page) : Page :=
  {| employeeSelect := employeeSelect p; roleSelect := roleSelect p;
     assignBtn := assignBtn p; employeeListDiv := employeeListDiv p;
     newEmployeeNameInput := newEmployeeNameInput p;
     createEmployeeBtn := createEmployeeBtn p; messageArea := messageArea p;
     timers := v; now := now p; next_handle := next_handle p;
     sent := sent p; console := console p |}.

Definition with_now (v : N) (p : Page) : Page :=
  {| employeeSelect := employeeSelect p; roleSelect := roleSelect p;
     assignBtn := assignBtn p; employeeListDiv := employeeListDiv p;
     newEmployeeNameInput := newEmployeeNameInput p;
     createEmployeeBtn := createEmployeeBtn p; messageArea := messageArea p;
     timers := timers p; now := v; next_handle := next_handle p;
     sent := sent p; console := console p |}.

Definition with_next_handle (v : nat) (p : Page) : Page :=
  {| employeeSelect := employeeSelect p; roleSelect := roleSelect p;
     assignBtn := assignBtn p; employeeListDiv := employeeListDiv p;
     newEmployeeNameInput := newEmployeeNameInput p;
     createEmployeeBtn := createEmployeeBtn p; messageArea := messageArea p;
     timers := timers p; now := now p; next_handle := v;
     sent := sent p; console := console p |}.

Definition with_sent (v : list Request) (p : Page) : Page :=
  {| employeeSelect := employeeSelect p; roleSelect := roleSelect p;
     assignBtn := assignBtn p; employeeListDiv := employeeListDiv p;
     newEmployeeNameInput := newEmployeeNameInput p;
     createEmployeeBtn := createEmployeeBtn p; messageArea := messageArea p;
     timers := timers p; now := now p; next_handle := next_handle p;
     sent := v; console := console p |}.

Definition with_console (v : list Exn) (p : Page) : Page :=
  {| employeeSelect := employeeSelect p; roleSelect := roleSelect p;
     assignBtn := assignBtn p; employeeListDiv := employeeListDiv p;
     newEmployeeNameInput := newEmployeeNameInput p;
     createEmployeeBtn := createEmployeeBtn p; messageArea := messageArea p;
     timers := timers p; now := now p; next_handle := next_handle p;
     sent := sent p; console := v |}.

(** ** Statements over the page: state and exceptions *)

Definition M (A : Type) : Type := Page -> Completion A * Page.

Definition ret {A} (a : A) : M A := fun p => (Normal a, p).

Definition throw {A} (e : Exn) : M A := fun p => (Throw e, p).

Definition bind {A B} (c : M A) (k : A -> M B) : M B :=
  fun p =>
    match c p with
    | (Normal a, p') => k a p'
    | (Throw e, p') => (Throw e, p')
    end.

Notation "x <- c ;; k" := (bind c (fun x => k))
  (at level 61, c at next level, right associativity).
Notation "c ;; k" := (bind c (fun _ => k))
  (at level 61, right associativity).

Definition modify (f : Page -> Page) : M unit := fun p => (Normal tt, f p).

Definition lift {A} (c : Completion A) : M A := fun p => (c, p).

(** [try { body } catch (error) { handler(error) }] *)
Definition try_catch (body : M unit) (handler : Exn -> M unit) : M unit :=
  fun p =>
    match body p with
    | (Normal a, p') => (Normal a, p')
    | (Throw e, p') => handler e p'
    end.

(** [try { body } finally { final }], for a [final] that completes
    normally. *)
Definition try_finally (body : M unit) (final : Page -> Page) : M unit :=
  fun p =>
    match body p with
    | (r, p') => (r, final p')
    end.

(** The page a statement leaves. *)
Definition exec {A} (c : M A) (p : Page) : Page := snd (c p).

(** ** Timers and the Notifier *)

(** [setTimeout(callback, delay)] *)
Definition setTimeout (a : TimerAction) (delay : N) : M unit :=
  modify (fun p =>
    with_timers (timers p ++ [ {| due := (now p + delay)%N; action := a |} ]) p).

(** [function showMessage(text, color)] *)
Definition showMessage (txt col : string) : M unit :=
  modify (with_messageArea {| textContent := txt; color := col |}) ;;
  setTimeout ClearMessage 5000%N.

Definition unmark (h : nat) (n : Node) : Node :=
  match n with
  | CardNode c =>
      if (handle c =? h)%nat
      then CardNode {| handle := handle c; elem_id := elem_id c;
                       first_p := first_p c; outerHTML := outerHTML c;
                       updated := false |}
      else n
  | Paragraph _ _ => n
  end.

(** What a timer callback does when it fires.  A callback of a card acts
    on the element it captured, which may have left the list by then. *)
Definition fire (a : TimerAction) (p : Page) : Page :=
  match a with
  | ClearMessage =>
      with_messageArea
        {| textContent := EmptyString; color := color (messageArea p) |} p
  | RemoveUpdated h =>
      with_employeeListDiv (map (unmark h) (employeeListDiv p)) p
  end.

(** Timers fire by due time, and in the order of their scheduling when due
    together. *)
Fixpoint insert_by_due (t : Timer) (q : list Timer) : list Timer :=
  match q with
  | [] => [t]
  | u :: q' => if (due t <=? due u)%N then t :: q else u :: insert_by_due t q'
  end.

Definition by_due (q : list Timer) : list Timer :=
  fold_right insert_by_due [] q.

Definition is_due (t : N) (x : Timer) : bool := (due x <=? t)%N.

(** [ms] milliseconds pass with no other event. *)
Definition advance (ms : N) (p : Page) : Page :=
  let t := (now p + ms)%N in
  let ready := by_due (filter (is_due t) (timers p)) in
  let rest := filter (fun x => negb (is_due t x)) (timers p) in
  fold_left (fun st x => fire (action x) st) ready
    (with_now t (with_timers rest p)).

(** ** Elements *)

Definition select_value (s : Select) : string :=
  match selectedIndex s with
  | Some i =>
      match nth_error (options s) i with
      | Some o => value o
      | None => EmptyString
      end
  | None => EmptyString
  end.

Fixpoint index_of_value (v : string) (os : list OptionEl) : option nat :=
  match os with
  | [] => None
  | o :: os' =>
      if value o =? v then Some 0 else option_map S (index_of_value v os')
  end.

(** [select.value = v]: the first option of that value becomes the
    selected one; none is selected when no option has it. *)
Definition set_select_value (v : string) (s : Select) : Select :=
  {| options := options s; selectedIndex := index_of_value v (options s) |}.

(** [select.innerHTML = ...]: the options are replaced and a drop-down
    shows its first option. *)
Definition set_select_options (os : list OptionEl) (s : Select) : Select :=
  {| options := os;
     selectedIndex := match os with [] => None | _ :: _ => Some 0 end |}.

(** [select.appendChild(option)]: a drop-down with nothing selected falls
    back to its first option. *)
Definition appendChild (o : OptionEl) (s : Select) : Select :=
  {| options := options s ++ [o];
     selectedIndex :=
       match selectedIndex s with
       | Some i => Some i
       | None => Some 0
       end |}.

Definition sentinel : string := "No employees found.".

(** [employeeListDiv.querySelector('p')] and the [textContent] of what it
    finds: the first paragraph in document order. *)
Definition first_paragraph (nodes : list Node) : option string :=
  match nodes with
  | [] => None
  | Paragraph _ t :: _ => Some t
  | CardNode c :: _ => Some (first_p c)
  end.

Definition has_key (key : string) (n : Node) : bool :=
  match n with
  | CardNode c => elem_id c =? key
  | Paragraph _ _ => false
  end.

(** The position of the first element of id [key]. *)
Fixpoint find_card (key : string) (nodes : list Node) : option nat :=
  match nodes with
  | [] => None
  | n :: rest =>
      if has_key key n then Some 0 else option_map S (find_card key rest)
  end.

(** [document.getElementById(key)] *)
Definition getElementById (key : string) : M (option nat) :=
  fun p => (Normal (find_card key (employeeListDiv p)), p).

Fixpoint replace_at {A} (i : nat) (x : A) (l : list A) {struct l} : list A :=
  match l, i with
  | [], _ => []
  | _ :: l', 0 => x :: l'
  | y :: l', S j => y :: replace_at j x l'
  end.

(** The element the parser builds from the markup [html] of a card of
    [emp].  Its id attribute and the text of its first paragraph are the
    ones [card_template] writes into the markup; the parser reads them back
    as written when the id and the name hold no markup character, which is
    the scope of this model of the parser. *)
Definition card_element (h : nat) (emp : Employee) (html : string) : CardEl :=
  {| handle := h;
     elem_id := card_key (employee_id emp);
     first_p := "Name: " ++ name emp ++ " (ID: " ++ employee_id emp ++ ")";
     outerHTML := html;
     updated := false |}.

Definition new_card (emp : Employee) (html : string) : M Node :=
  fun p =>
    (Normal (CardNode (card_element (next_handle p) emp html)),
     with_next_handle (S (next_handle p)) p).

(** [employeeListDiv.insertAdjacentHTML('beforeend', html)] *)
Definition insertAdjacentHTML_beforeend (emp : Employee) (html : string) : M unit :=
  n <- new_card emp html ;;
  modify (fun p => with_employeeListDiv (employeeListDiv p ++ [n]) p).

(** [card.outerHTML = html] for the card at position [i]. *)
Definition set_outerHTML (i : nat) (emp : Employee) (html : string) : M unit :=
  n <- new_card emp html ;;
  modify (fun p => with_employeeListDiv (replace_at i n (employeeListDiv p)) p).

Definition mark (n : Node) : Node :=
  match n with
  | CardNode c =>
      CardNode {| handle := handle c; elem_id := elem_id c;
                  first_p := first_p c; outerHTML := outerHTML c;
                  updated := true |}
  | Paragraph _ _ => n
  end.

Definition mark_at (i : nat) (nodes : list Node) : list Node :=
  match nth_error nodes i with
  | Some n => replace_at i (mark n) nodes
  | None => nodes
  end.

Definition handle_at (i : nat) (nodes : list Node) : nat :=
  match nth_error nodes i with
  | Some (CardNode c) => handle c
  | _ => 0
  end.

(** [card.classList.add('updated');
     setTimeout(() => card.classList.remove('updated'), 2000)]
    for the result [card] of a lookup, which is [null] when nothing was
    found. *)
Definition highlight (card : option nat) : M unit :=
  match card with
  | None => throw (cannot_read "null" "classList")
  | Some i =>
      modify (fun p => with_employeeListDiv (mark_at i (employeeListDiv p)) p) ;;
      (fun p => setTimeout (RemoveUpdated (handle_at i (employeeListDiv p))) 2000%N p)
  end.

(** ** Requests *)

(** How a request ends for the code after the [await]s: [fetch] rejected
    (no response), or a response of status flag [ok] whose
    [response.json()] either gave [json] or rejected (a body that is not
    JSON). *)
Inductive Outcome (A : Type) : Type :=
| Rejected (e : Exn)
| Response (ok : bool) (json : Completion A).
Arguments Rejected {A} e.
Arguments Response {A} ok json.

Definition fetch (r : Request) : M unit :=
  modify (fun p => with_sent (sent p ++ [r]) p).

Definition await {A} (o : Outcome A) : M (bool * A) :=
  match o with
  | Rejected e => throw e
  | Response ok (Throw e) => throw e
  | Response ok (Normal json) => ret (ok, json)
  end.

(** The first read of a property of a parsed body: the JSON value [null]
    has no properties, and reading one throws (so does [undefined]). *)
Definition property_of {A} (v : Field A) (prop : string) : M A :=
  match v with
  | Value a => ret a
  | Null => throw (cannot_read "null" prop)
  | Undefined => throw (cannot_read "undefined" prop)
  end.

Definition console_error (e : Exn) : M unit :=
  modify (fun p => with_console (console p ++ [e]) p).

(** [field || fallback] for a string property. *)
Definition or_else (f : Field string) (fallback : string) : string :=
  match f with
  | Value s => if s =? EmptyString then fallback else s
  | Undefined | Null => fallback
  end.

(** ** DataLoader and list rendering *)

(** [employees.map(renderEmployeeCard)]: the first card that throws ends
    the mapping. *)
Fixpoint render_all (emps : list Employee) : Completion (list string) :=
  match emps with
  | [] => Normal []
  | e :: rest =>
      match renderEmployeeCard e with
      | Throw x => Throw x
      | Normal html =>
          match render_all rest with
          | Throw x => Throw x
          | Normal htmls => Normal (html :: htmls)
          end
      end
  end.

(** The elements parsed from the joined cards, with handles from [h] on:
    one element per card fragment, which is what the parser builds when the
    values interpolated into the fragments hold no markup character. *)
Fixpoint parse_cards (h : nat) (emps : list Employee) (htmls : list string)
  : list Node :=
  match emps, htmls with
  | e :: es, x :: xs => CardNode (card_element h e x) :: parse_cards (S h) es xs
  | _, _ => []
  end.

(** [employeeListDiv.innerHTML = htmls.join('')] for the cards of [emps]. *)
Definition set_cards (emps : list Employee) (htmls : list string) : M unit :=
  modify (fun p =>
    with_next_handle (next_handle p + List.length emps)
      (with_employeeListDiv (parse_cards (next_handle p) emps htmls) p)).

(** [function renderEmployeeList(employees)] *)
Definition renderEmployeeList (employees : Field (list Employee)) : M unit :=
  match employees with
  | Undefined | Null | Value [] =>
      modify (with_employeeListDiv [Paragraph None sentinel])
  | Value emps =>
      htmls <- lift (render_all emps) ;;
      set_cards emps htmls
  end.

(** The markup a node was written as. *)
Definition node_markup (n : Node) : string :=
  match n with
  | Paragraph None t => "<p>" ++ t ++ "</p>"
  | Paragraph (Some c) t =>
      "<p style=" ++ dq ++ "color: " ++ c ++ ";" ++ dq ++ ">" ++ t ++ "</p>"
  | CardNode c => outerHTML c
  end.

(** The markup the list container was written as. *)
Definition list_markup (nodes : list Node) : string :=
  join (map node_markup nodes).

(** The option of an employee.  [handleCreateEmployee] builds it through
    [value] and [textContent], so it holds the id and the name as they are.
    [fetchEmployees] writes it as markup, the id in the value attribute
    and the name as the content, from which the parser builds this option
    when the id and the name hold no markup character; the same holds for
    the option of a role. *)
Definition employee_option (emp : Employee) : OptionEl :=
  {| value := employee_id emp; text := name emp |}.

Definition role_option (r : Role) : OptionEl :=
  {| value := role_id r; text := role_name r |}.

Definition load_error : Node :=
  Paragraph (Some "red") "Error loading employee data.".

(** [async function fetchEmployees()] up to its first [await]. *)
Definition fetchEmployees : M unit := fetch GetEmployees.

(** [fetchEmployees] from its [await]s on.  The status of the response is
    not looked at. *)
Definition fetchEmployees_resume (o : Outcome (Field (list Employee))) : M unit :=
  try_catch
    (r <- await o ;;
     let employees := snd r in
     match employees with
     | Undefined => throw (cannot_read "undefined" "map")
     | Null => throw (cannot_read "null" "map")
     | Value emps =>
         modify (fun p =>
           with_employeeSelect
             (set_select_options (map employee_option emps) (employeeSelect p)) p) ;;
         renderEmployeeList employees
     end)
    (fun error =>
       console_error error ;;
       modify (with_employeeListDiv [load_error])).

(** [async function fetchRoles()] up to its first [await]. *)
Definition fetchRoles : M unit := fetch GetRoles.

Definition fetchRoles_resume (o : Outcome (Field (list Role))) : M unit :=
  try_catch
    (r <- await o ;;
     match snd r with
     | Undefined => throw (cannot_read "undefined" "map")
     | Null => throw (cannot_read "null" "map")
     | Value roles =>
         modify (fun p =>
           with_roleSelect
             (set_select_options (map role_option roles) (roleSelect p)) p)
     end)
    (fun error => console_error error).

(** ** MutationHandlers *)

Definition busy (lbl : string) : Button := {| disabled := true; label := lbl |}.
Definition idle (lbl : string) : Button := {| disabled := false; label := lbl |}.

Definition name_required : string := "Please enter a name for the new employee.".
Definition selection_required : string := "Please select both an employee and a role.".
Definition create_failed : string := "Failed to create employee.".
Definition assign_failed : string := "Failed to assign role.".

(** [async function handleCreateEmployee()] up to its first [await]. *)
Definition handleCreateEmployee : M unit :=
  fun p =>
    let new_name := trim (newEmployeeNameInput p) in
    if new_name =? EmptyString
    then showMessage name_required "red" p
    else (modify (with_createEmployeeBtn (busy "Creating...")) ;;
          fetch (PostEmployee new_name)) p.

(** The statements of [handleCreateEmployee] after the status check. *)
Definition createEmployee_success (newEmployee : Employee) : M unit :=
  showMessage ("Successfully created employee: " ++ name newEmployee ++ ".") "green" ;;
  (fun p =>
     if match first_paragraph (employeeListDiv p) with
        | Some t => t =? sentinel
        | None => false
        end
     then modify (with_employeeListDiv []) p
     else ret tt p) ;;
  html <- lift (renderEmployeeCard newEmployee) ;;
  insertAdjacentHTML_beforeend newEmployee html ;;
  modify (fun p =>
    with_employeeSelect
      (appendChild (employee_option newEmployee) (employeeSelect p)) p) ;;
  modify (fun p =>
    with_employeeSelect
      (set_select_value (employee_id newEmployee) (employeeSelect p)) p) ;;
  newCard <- getElementById (card_key (employee_id newEmployee)) ;;
  highlight newCard ;;
  modify (with_newEmployeeNameInput EmptyString).

(** [handleCreateEmployee] from its [await]s on.  The first property read
    on the parsed body is [error] on a non-success status and [name], for
    the success message, otherwise. *)
Definition handleCreateEmployee_resume (o : Outcome (Field Body)) : M unit :=
  try_finally
    (try_catch
       (r <- await o ;;
        if negb (fst r)
        then (newEmployee <- property_of (snd r) "error" ;;
              throw (Error (or_else (error newEmployee) create_failed)))
        else (newEmployee <- property_of (snd r) "name" ;;
              createEmployee_success (employee newEmployee)))
       (fun error =>
          console_error error ;;
          showMessage (message error) "red"))
    (with_createEmployeeBtn (idle "Create Employee")).

(** [async function handleAssignRole()] up to its first [await]. *)
Definition handleAssignRole : M unit :=
  fun p =>
    let employeeId := select_value (employeeSelect p) in
    let roleId := select_value (roleSelect p) in
    if (employeeId =? EmptyString) || (roleId =? EmptyString)
    then showMessage selection_required "red" p
    else (modify (with_assignBtn (busy "Assigning...")) ;;
          fetch (PutAssignRole employeeId roleId)) p.

(** The statements of [handleAssignRole] after the status check. *)
Definition assignRole_success (updatedEmployee : Employee) : M unit :=
  showMessage ("Successfully assigned new role to " ++ name updatedEmployee ++ ".")
    "green" ;;
  cardToUpdate <- getElementById (card_key (employee_id updatedEmployee)) ;;
  match cardToUpdate with
  | Some i =>
      html <- lift (renderEmployeeCard updatedEmployee) ;;
      set_outerHTML i updatedEmployee html ;;
      newCard <- getElementById (card_key (employee_id updatedEmployee)) ;;
      highlight newCard
  | None => fetchEmployees
  end.

(** [handleAssignRole] from its [await]s on. *)
Definition handleAssignRole_resume (o : Outcome (Field Body)) : M unit :=
  try_finally
    (try_catch
       (r <- await o ;;
        if negb (fst r)
        then (updatedEmployee <- property_of (snd r) "error" ;;
              throw (Error (or_else (error updatedEmployee) assign_failed)))
        else (updatedEmployee <- property_of (snd r) "name" ;;
              assignRole_success (employee updatedEmployee)))
       (fun error =>
          console_error error ;;
          showMessage (message error) "red"))
    (with_assignBtn (idle "Assign Role")).

(** ** The event loop *)

Inductive Event :=
| Loaded
| TypeName (s : string)
| ChooseEmployee (v : string)
| ChooseRole (v : string)
| ClickCreate
| ClickAssign
| CreateSettles (o : Outcome (Field Body))
| AssignSettles (o : Outcome (Field Body))
| EmployeesSettle (o : Outcome (Field (list Employee)))
| RolesSettle (o : Outcome (Field (list Role)))
| Elapse (ms : N).

(** A disabled button does not deliver its click. *)
Definition click (b : Button) (handler : M unit) (p : Page) : Page :=
  if disabled b then p else exec handler p.

Definition step (e : Event) (p : Page) : Page :=
  match e with
  | Loaded => exec (fetchEmployees ;; fetchRoles) p
  | TypeName s => with_newEmployeeNameInput s p
  | ChooseEmployee v =>
      with_employeeSelect (set_select_value v (employeeSelect p)) p
  | ChooseRole v => with_roleSelect (set_select_value v (roleSelect p)) p
  | ClickCreate => click (createEmployeeBtn p) handleCreateEmployee p
  | ClickAssign => click (assignBtn p) handleAssignRole p
  | CreateSettles o => exec (handleCreateEmployee_resume o) p
  | AssignSettles o => exec (handleAssignRole_resume o) p
  | EmployeesSettle o => exec (fetchEmployees_resume o) p
  | RolesSettle o => exec (fetchRoles_resume o) p
  | Elapse ms => advance ms p
  end.

Definition run (es : list Event) (p : Page) : Page :=
  fold_left (fun st e => step e st) es p.

(** Modelled from the spec: the document of the page ([index.html]) is not
    among the sources.  This is the page of the structural contract before
    the script runs: two empty selectors, an empty list container, an empty
    name input, an empty status line and the two triggers, enabled, under
    the labels the script gives them back. *)
Definition initial_page : Page :=
  {| employeeSelect := {| options := []; selectedIndex := None |};
     roleSelect := {| options := []; selectedIndex := None |};
     assignBtn := idle "Assign Role";
     employeeListDiv := [];
     newEmployeeNameInput := EmptyString;
     createEmployeeBtn := idle "Create Employee";
     messageArea := {| textContent := EmptyString; color := EmptyString |};
     timers := []; now := 0%N; next_handle := 0; sent := []; console := [] |}.

(** ** Notions of the statements *)

(** An employee of the data model: [assigned_courses] is an array. *)
Definition has_courses (emp : Employee) : Prop :=
  exists cs, assigned_courses emp = Value cs.

Definition courses_of (emp : Employee) : list Course :=
  match assigned_courses emp with
  | Value cs => cs
  | Undefined | Null => []
  end.

(** [htmls] are the cards of [emps], one for one. *)
Definition rendered_as (emps : list Employee) (htmls : list string) : Prop :=
  Forall2 (fun e html => renderEmployeeCard e = Normal html) emps htmls.

(** The list renderer as the specification words it, a function from the
    sequence to markup: the sentinel paragraph for an empty sequence, the
    cards joined in input order otherwise. *)
Definition renderEmployeeList_markup (employees : Field (list Employee))
  : Completion string :=
  match employees with
  | Undefined | Null | Value [] => Normal "<p>No employees found.</p>"
  | Value emps =>
      match render_all emps with
      | Normal htmls => Normal (join htmls)
      | Throw e => Throw e
      end
  end.

(** [p'] differs from [p] in the list container (and the handles given
    out) at most. *)
Definition only_list_changed (p p' : Page) : Prop :=
  p' = with_next_handle (next_handle p')
         (with_employeeListDiv (employeeListDiv p') p).

(** The list of [p] with the sentinel of an empty collection cleared, as
    [handleCreateEmployee] clears it. *)
Definition without_sentinel (nodes : list Node) : list Node :=
  match first_paragraph nodes with
  | Some t => if t =? sentinel then [] else nodes
  | None => nodes
  end.

Definition success_created (emp : Employee) : MessageArea :=
  {| textContent := "Successfully created employee: " ++ name emp ++ ".";
     color := "green" |}.

Definition success_assigned (emp : Employee) : MessageArea :=
  {| textContent := "Successfully assigned new role to " ++ name emp ++ ".";
     color := "green" |}.

Definition alert (txt : string) : MessageArea :=
  {| textContent := txt; color := "red" |}.

(** The two states of a trigger. *)
Inductive ControlState := Idle | Busy.

Definition control (b : Button) : ControlState :=
  if disabled b then Busy else Idle.

(** The status line once a clearing timer has fired. *)
Definition cleared (m : MessageArea) : MessageArea :=
  {| textContent := EmptyString; color := color m |}.

Definition is_clear (x : Timer) : bool :=
  match action x with
  | ClearMessage => true
  | RemoveUpdated _ => false
  end.

(** Some pending timer of the Notifier falls due by time [t]. *)
Definition clear_due (t : N) (q : list Timer) : bool :=
  existsb (fun x => is_clear x && is_due t x) q.

(** Every code unit of [s] is white space. *)
Fixpoint all_space (s : string) : bool :=
  match s with
  | EmptyString => true
  | String c s' => is_space c && all_space s'
  end.

(** A paragraph that reads as the sentinel of an empty collection. *)
Definition is_sentinel (n : Node) : bool :=
  match n with
  | Paragraph _ t => t =? sentinel
  | CardNode _ => false
  end.

Definition no_sentinel (nodes : list Node) : Prop :=
  forallb (fun n => negb (is_sentinel n)) nodes = true.

(** The sentinel is shown alone or not at all. *)
Definition sentinel_alone (nodes : list Node) : Prop :=
  nodes = [Paragraph None sentinel] \/ no_sentinel nodes.

(** The markup of the paragraph that replaces the list when loading
    fails. *)
Definition load_error_markup : string :=
  "<p style=" ++ dq ++ "color: red;" ++ dq ++ ">Error loading employee data.</p>".

(** What the list reads after [fetchEmployees] has settled with [o]. *)
Definition markup_after_load (o : Outcome (Field (list Employee))) : string :=
  match o with
  | Response _ (Normal (Value emps)) =>
      match renderEmployeeList_markup (Value emps) with
      | Normal markup => markup
      | Throw _ => load_error_markup
      end
  | _ => load_error_markup
  end.


(** A request the handlers may send: a creation carries a name that is not
    empty and has no white space around it, an assignment an employee id
    and a role id that are not empty. *)
Definition clean_request (r : Request) : Prop :=
  match r with
  | GetEmployees | GetRoles => True
  | PostEmployee n => n <> EmptyString /\ trim n = n
  | PutAssignRole e r' => e <> EmptyString /\ r' <> EmptyString
  end.

(** A trigger is enabled under its label or disabled under its busy
    label. *)
Definition trigger_ok (idle_label busy_label : string) (b : Button) : Prop :=
  b = idle idle_label \/ b = busy busy_label.

Definition triggers_ok (p : Page) : Prop :=
  trigger_ok "Create Employee" "Creating..." (createEmployeeBtn p) /\
  trigger_ok "Assign Role" "Assigning..." (assignBtn p).

(** Handles are given out in increasing order: every card of the list
    and every element a pending timer has captured was created before the
    next handle. *)
Definition fresh_node (nh : nat) (n : Node) : Prop :=
  match n with
  | CardNode c => handle c < nh
  | Paragraph _ _ => True
  end.

Definition fresh_timer (nh : nat) (x : Timer) : Prop :=
  match action x with
  | RemoveUpdated h => h < nh
  | ClearMessage => True
  end.

Definition handles_fresh (p : Page) : Prop :=
  Forall (fresh_node (next_handle p)) (employeeListDiv p) /\
  Forall (fresh_timer (next_handle p)) (timers p).

(** The timer [x] is the un-marking of the element of handle [h]. *)
Definition targets (h : nat) (x : Timer) : bool :=
  match action x with
  | RemoveUpdated h' => (h' =? h)%nat
  | ClearMessage => false
  end.

(** What the timers of [q] leave of a node when they fire. *)
Definition unmark_by (q : list Timer) (n : Node) : Node :=
  fold_left
    (fun m x =>
       match action x with
       | RemoveUpdated h => unmark h m
       | ClearMessage => m
       end) q n.

(** The card [c] without the class ['updated']. *)
Definition unmarked_card (c : CardEl) : CardEl :=
  {| handle := handle c; elem_id := elem_id c; first_p := first_p c;
     outerHTML := outerHTML c; updated := false |}.

(** The error a mutation handler catches before it has touched the page:
    [fetch] rejected, the body was not JSON, or the body was [null] and the
    first read of a property threw.  [None] when the body is an object. *)
Definition caught_early (o : Outcome (Field Body)) : option Exn :=
  match o with
  | Rejected e => Some e
  | Response _ (Throw e) => Some e
  | Response ok (Normal Null) =>
      Some (cannot_read "null" (if ok then "name" else "error"))
  | Response ok (Normal Undefined) =>
      Some (cannot_read "undefined" (if ok then "name" else "error"))
  | Response _ (Normal (Value _)) => None
  end.




(** The characters that the HTML parser does not read as text: a string
    free of them is read back from markup as it was written. *)
Definition markup_char (c : ascii) : bool :=
  (c =? "<")%char || (c =? ">")%char || (c =? "&")%char || (c =? "034")%char.

Fixpoint plain (s : string) : bool :=
  match s with
  | EmptyString => true
  | String c s' => negb (markup_char c) && plain s'
  end.

Definition plain_employee (e : Employee) : Prop :=
  plain (employee_id e) = true /\ plain (name e) = true.

Definition plain_role (r : Role) : Prop :=
  plain (role_id r) = true /\ plain (role_name r) = true.

(** ** Sample data *)

Definition trainer : Role := {| role_id := "3"; role_name := "Trainer" |}.

Definition bo : Employee :=
  {| employee_id := "7"; name := "Bo"; current_role := Value trainer;
     assigned_courses := Value [ {| title := "Safety" |}; {| title := "Ethics" |} ] |}.

Definition bo_before : Employee :=
  {| employee_id := "7"; name := "Bo"; current_role := Null;
     assigned_courses := Value [] |}.


(** [{employee_id:"42", name:"Ada", current_role:null, assigned_courses:[]}] *)
Definition ada : Employee :=
  {| employee_id := "42"; name := "Ada"; current_role := Null;
     assigned_courses := Value [] |}.

(** [{employee_id:"7", name:"Bo", current_role:{role_id:"3", name:"Trainer"}}] *)
Definition bo_bare : Employee :=
  {| employee_id := "7"; name := "Bo"; current_role := Value trainer;
     assigned_courses := Undefined |}.

Definition reply (emp : Employee) : Body :=
  {| error := Undefined; employee := emp |}.


(** The page once the two collections have loaded. *)
Definition loaded_page (emps : list Employee) (roles : list Role) : Page :=
  run [ Loaded;
        EmployeesSettle (Response true (Normal (Value emps)));
        RolesSettle (Response true (Normal (Value roles))) ]
      initial_page.

(** ** Strings: occurrence *)

Lemma append_assoc (a b c : string) : (a ++ b) ++ c = a ++ b ++ c.
Proof. induction a as [|x a IH]; simpl; [reflexivity | now rewrite IH]. Qed.

Lemma append_nil_r (a : string) : a ++ EmptyString = a.
Proof. induction a as [|x a IH]; simpl; [reflexivity | now rewrite IH]. Qed.

Lemma starts_nil t : Starts EmptyString t.
Proof. now exists t. Qed.

Lemma starts_char c s t : Starts s t -> Starts (String c s) (String c t).
Proof. intros [post ->]. now exists post. Qed.

Lemma starts_app v s t : Starts s t -> Starts (v ++ s) (v ++ t).
Proof. intros [post ->]. exists post. now rewrite append_assoc. Qed.

Lemma starts_self v t : Starts v (v ++ t).
Proof. now exists t. Qed.

Lemma starts_refl v : Starts v v.
Proof. exists EmptyString. now rewrite append_nil_r. Qed.

Lemma contains_starts s t : Starts s t -> Contains s t.
Proof. intros [post ->]. now exists EmptyString, post. Qed.

Lemma contains_char c s t : Contains s t -> Contains s (String c t).
Proof. intros (pre & post & ->). now exists (String c pre), post. Qed.

Lemma contains_app_r v s t : Contains s t -> Contains s (v ++ t).
Proof.
  intros (pre & post & ->). exists (v ++ pre), post. now rewrite append_assoc.
Qed.

Lemma contains_app_l v s t : Contains s t -> Contains s (t ++ v).
Proof.
  intros (pre & post & ->). exists pre, (post ++ v).
  now rewrite !append_assoc.
Qed.

Lemma contains_trans a b c : Contains a b -> Contains b c -> Contains a c.
Proof.
  intros (p1 & q1 & ->) (p2 & q2 & ->). exists (p2 ++ p1), (q1 ++ q2).
  now rewrite !append_assoc.
Qed.

Ltac starts :=
  repeat first
    [ apply starts_nil | apply starts_refl | apply starts_self
    | apply starts_char | apply starts_app ].

(** Search for an occurrence along a chain of characters and appended
    parts. *)
Ltac occurs :=
  first
    [ apply contains_starts; solve [starts]
    | apply contains_char; occurs
    | apply contains_app_r; occurs ].

(** ** Renderer: the card *)

Lemma card_key_injective a b : card_key a = card_key b -> a = b.
Proof. unfold card_key. simpl. intros H. now injection H. Qed.

Lemma renderEmployeeCard_array emp cs :
  assigned_courses emp = Value cs ->
  renderEmployeeCard emp = Normal (card_template emp cs).
Proof. unfold renderEmployeeCard. now intros ->. Qed.

Lemma card_template_id emp cs : Contains (employee_id emp) (card_template emp cs).
Proof. unfold card_template, card_key. cbn. occurs. Qed.

Lemma card_template_heading emp cs :
  Contains (name emp ++ " (ID: " ++ employee_id emp ++ ")") (card_template emp cs).
Proof. unfold card_template, card_key. cbn. occurs. Qed.

Lemma card_template_role emp cs :
  Contains ("<p><strong>Current Role:</strong> " ++ role_text (current_role emp) ++ "</p>")
    (card_template emp cs).
Proof. unfold card_template, card_key. cbn. occurs. Qed.

Lemma card_template_courses emp cs :
  Contains ("<ul>" ++ nl ++ spaces 20 ++ courses_markup cs ++ nl ++ spaces 16 ++ "</ul>")
    (card_template emp cs).
Proof. unfold card_template, card_key. cbn. occurs. Qed.

Lemma card_template_key emp cs :
  Contains ("id=" ++ dq ++ card_key (employee_id emp) ++ dq) (card_template emp cs).
Proof. unfold card_template, card_key. cbn. occurs. Qed.

(** C6. For an employee whose [assigned_courses] is the array [cs],
    [renderEmployeeCard] returns markup that contains the employee's id and
    name (as the heading "name (ID: id)"), the name of the current role
    when there is one and "Not Assigned" when [current_role] is absent or
    null, between the list tags exactly one item per course title in the
    order of [cs] when [cs] is not empty and the item "None" when it is,
    and the id attribute "employee-card-<id>"; the element parsed from the
    card is found under that key, and the key determines the id. *)
Theorem renderEmployeeCard_contents (emp : Employee) (cs : list Course) :
  assigned_courses emp = Value cs ->
  exists markup,
    renderEmployeeCard emp = Normal markup /\
    Contains (employee_id emp) markup /\
    Contains (name emp) markup /\
    Contains (name emp ++ " (ID: " ++ employee_id emp ++ ")") markup /\
    (forall role, current_role emp = Value role ->
       Contains ("<p><strong>Current Role:</strong> " ++ role_name role ++ "</p>") markup) /\
    (current_role emp = Undefined \/ current_role emp = Null ->
       Contains "<p><strong>Current Role:</strong> Not Assigned</p>" markup) /\
    (cs <> [] ->
       Contains ("<ul>" ++ nl ++ spaces 20
                   ++ join (map (fun c => "<li>" ++ title c ++ "</li>") cs)
                   ++ nl ++ spaces 16 ++ "</ul>") markup) /\
    (cs = [] ->
       Contains ("<ul>" ++ nl ++ spaces 20 ++ "<li>None</li>"
                   ++ nl ++ spaces 16 ++ "</ul>") markup) /\
    Contains ("id=" ++ dq ++ "employee-card-" ++ employee_id emp ++ dq) markup /\
    (forall h, find_card (card_key (employee_id emp))
                 [CardNode (card_element h emp markup)] = Some 0) /\
    (forall other, card_key (employee_id other) = card_key (employee_id emp) ->
                   employee_id other = employee_id emp).
Proof.
  intros Hcs. exists (card_template emp cs).
  split; [now apply renderEmployeeCard_array|].
  split; [apply card_template_id|].
  split.
  { eapply contains_trans; [|apply card_template_heading].
    apply contains_starts, starts_self. }
  split; [apply card_template_heading|].
  split.
  { intros role Hrole. generalize (card_template_role emp cs).
    now rewrite Hrole. }
  split.
  { intros Hnone. generalize (card_template_role emp cs).
    now destruct Hnone as [-> | ->]. }
  split.
  { intros Hne. generalize (card_template_courses emp cs).
    unfold courses_markup. destruct cs as [|c cs']; [congruence|].
    now simpl. }
  split.
  { intros ->. apply (card_template_courses emp []). }
  split; [apply card_template_key|].
  split.
  { intros h. simpl. now rewrite String.eqb_refl. }
  intros other. apply card_key_injective.
Qed.

Lemma renderEmployeeCard_contents_witness :
  exists markup,
    renderEmployeeCard bo = Normal markup /\
    Contains "Bo (ID: 7)" markup /\
    Contains "<p><strong>Current Role:</strong> Trainer</p>" markup /\
    Contains "<li>Safety</li><li>Ethics</li>" markup.
Proof.
  destruct (renderEmployeeCard_contents bo _ eq_refl)
    as (markup & Hr & _ & _ & Hh & Hrole & _ & Hcs & _).
  exists markup. split; [exact Hr|]. split; [exact Hh|].
  split; [exact (Hrole trainer eq_refl)|].
  eapply contains_trans; [|apply Hcs; discriminate].
  cbn. occurs.
Defined.

(** ** Renderer: the list *)

Lemma render_all_cards emps htmls :
  render_all emps = Normal htmls -> rendered_as emps htmls.
Proof.
  revert htmls. induction emps as [|e emps IH]; simpl; intros htmls H.
  - injection H as <-. constructor.
  - destruct (renderEmployeeCard e) as [html|x] eqn:He; [|discriminate].
    destruct (render_all emps) as [rest|x]; [|discriminate].
    injection H as <-. constructor; [exact He | now apply IH].
Qed.

Lemma render_all_total emps :
  Forall has_courses emps ->
  render_all emps = Normal (map (fun e => card_template e (courses_of e)) emps).
Proof.
  induction 1 as [|e emps [cs Hcs] _ IH]; simpl; [reflexivity|].
  rewrite (renderEmployeeCard_array e cs Hcs), IH.
  unfold courses_of. now rewrite Hcs.
Qed.

Lemma parse_cards_markup emps htmls h :
  rendered_as emps htmls ->
  list_markup (parse_cards h emps htmls) = join htmls.
Proof.
  intros R. revert h. induction R as [|e html es hs _ _ IH]; intros h.
  - reflexivity.
  - unfold list_markup. simpl. f_equal. apply IH.
Qed.










(** The list renderer refines the function of the specification: what it
    writes is decided by its argument alone. *)
Lemma renderEmployeeList_refines employees p :
  match renderEmployeeList_markup employees with
  | Normal markup =>
      exists p', renderEmployeeList employees p = (Normal tt, p') /\
                 list_markup (employeeListDiv p') = markup /\
                 only_list_changed p p'
  | Throw e => renderEmployeeList employees p = (Throw e, p)
  end.
Proof.
  destruct employees as [| |[|e emps]];
    try (eexists; split; [reflexivity|]; split; reflexivity).
  unfold renderEmployeeList_markup, renderEmployeeList, bind, lift.
  destruct (render_all (e :: emps)) as [htmls|x] eqn:Hall; [|reflexivity].
  eexists. split; [reflexivity|]. split; [|reflexivity].
  cbn [employeeListDiv with_next_handle with_employeeListDiv].
  apply parse_cards_markup. now apply render_all_cards.
Qed.

(** C9 (as amended). [renderEmployeeCard] is a function of the employee
    alone and touches no state.  [renderEmployeeList] returns nothing and
    overwrites the list container instead; whether it completes, and the
    markup it writes, depend on its argument only and not on the page, so
    rendering identical data again writes byte-identical list markup, and
    nothing but the list container changes. *)
Theorem renderers_deterministic :
  (forall emp p, lift (renderEmployeeCard emp) p = (renderEmployeeCard emp, p)) /\
  (forall employees p1 p2,
     fst (renderEmployeeList employees p1) = fst (renderEmployeeList employees p2) /\
     (fst (renderEmployeeList employees p1) = Normal tt ->
      list_markup (employeeListDiv (exec (renderEmployeeList employees) p1))
      = list_markup (employeeListDiv (exec (renderEmployeeList employees) p2)))) /\
  (forall employees p,
     fst (renderEmployeeList employees p) = Normal tt ->
     let p' := exec (renderEmployeeList employees) p in
     only_list_changed p p' /\
     list_markup (employeeListDiv (exec (renderEmployeeList employees) p'))
     = list_markup (employeeListDiv p')).
Proof.
  split; [reflexivity|].
  assert (Hsame : forall employees p1 p2,
     fst (renderEmployeeList employees p1) = fst (renderEmployeeList employees p2) /\
     (fst (renderEmployeeList employees p1) = Normal tt ->
      list_markup (employeeListDiv (exec (renderEmployeeList employees) p1))
      = list_markup (employeeListDiv (exec (renderEmployeeList employees) p2)))).
  { intros employees p1 p2.
    pose proof (renderEmployeeList_refines employees p1) as H1.
    pose proof (renderEmployeeList_refines employees p2) as H2.
    unfold exec.
    destruct (renderEmployeeList_markup employees) as [markup|x].
    - destruct H1 as (q1 & -> & M1 & _), H2 as (q2 & -> & M2 & _).
      simpl. split; [reflexivity|]. intros _. congruence.
    - rewrite H1, H2. simpl. split; [reflexivity | discriminate]. }
  split; [exact Hsame|].
  intros employees p Hok p'. split.
  - pose proof (renderEmployeeList_refines employees p) as H.
    subst p'. unfold exec.
    destruct (renderEmployeeList_markup employees) as [markup|x].
    + now destruct H as (q & -> & _ & Hq).
    + rewrite H in Hok. discriminate.
  - destruct (Hsame employees p p') as [Hfst Hmk]. symmetry. now apply Hmk.
Qed.

Lemma renderers_deterministic_witness :
  list_markup (employeeListDiv (exec (renderEmployeeList (Value [bo; ada])) initial_page))
  = list_markup (employeeListDiv
      (exec (renderEmployeeList (Value [bo; ada]))
         (exec (renderEmployeeList (Value [bo; ada])) initial_page))).
Proof.
  symmetry.
  exact (proj2 (proj2 (proj2 renderers_deterministic)
                  (Value [bo; ada]) initial_page eq_refl)).
Defined.

(** C9 as stated fails: [renderEmployeeList] is not free of side effects.
    Rendering the empty sequence on the initial page changes the page. *)
Lemma renderEmployeeList_not_pure :
  exec (renderEmployeeList (Value [])) initial_page <> initial_page /\
  employeeListDiv (exec (renderEmployeeList (Value [])) initial_page)
  = [Paragraph None "No employees found."].
Proof. split; [discriminate | reflexivity]. Qed.

(** ** MutationHandlers: validation *)

Lemma trimStart_head s c r : trimStart s = String c r -> is_space c = false.
Proof.
  induction s as [|d s IH]; simpl; [discriminate|].
  destruct (is_space d) eqn:Hd; [exact IH|].
  intros H. injection H as <- _. exact Hd.
Qed.

Lemma trimStart_empty s : trimStart s = EmptyString <-> all_space s = true.
Proof.
  induction s as [|d s IH]; simpl; [tauto|].
  destruct (is_space d); simpl; [exact IH|]. split; discriminate.
Qed.

Lemma trimEnd_keeps_head c r : is_space c = false -> trimEnd (String c r) <> EmptyString.
Proof. simpl. intros ->. destruct (trimEnd r); discriminate. Qed.

(** The trimmed name is empty exactly for an input of white space only. *)
Lemma trim_empty s : trim s = EmptyString <-> all_space s = true.
Proof.
  unfold trim. rewrite <- trimStart_empty. split.
  - destruct (trimStart s) as [|c r] eqn:Hs; [reflexivity|].
    intros H. exfalso. apply (trimEnd_keeps_head c r); [|exact H].
    now apply (trimStart_head s c r).
  - now intros ->.
Qed.

Lemma select_value_unset s : selectedIndex s = None -> select_value s = EmptyString.
Proof. unfold select_value. now intros ->. Qed.

Lemma showMessage_page txt col p :
  exec (showMessage txt col) p
  = with_timers (timers p ++ [ {| due := (now p + 5000)%N; action := ClearMessage |} ])
      (with_messageArea {| textContent := txt; color := col |} p).
Proof. reflexivity. Qed.

(** C3. When the trimmed name is empty, [handleCreateEmployee] only shows
    the validation message; when the value of the employee selector or of
    the role selector is empty (nothing selected, or an option of empty
    value), [handleAssignRole] only shows its validation message.  In both
    cases no request is sent and the list, the selectors, the input and the
    two triggers are as before. *)
Theorem validation_is_local :
  (forall p,
     trim (newEmployeeNameInput p) = EmptyString ->
     let p' := exec handleCreateEmployee p in
     p' = exec (showMessage "Please enter a name for the new employee." "red") p /\
     messageArea p' = alert "Please enter a name for the new employee." /\
     sent p' = sent p /\
     employeeListDiv p' = employeeListDiv p /\
     employeeSelect p' = employeeSelect p /\
     roleSelect p' = roleSelect p /\
     newEmployeeNameInput p' = newEmployeeNameInput p /\
     createEmployeeBtn p' = createEmployeeBtn p /\
     assignBtn p' = assignBtn p) /\
  (forall p,
     select_value (employeeSelect p) = EmptyString \/
     select_value (roleSelect p) = EmptyString ->
     let p' := exec handleAssignRole p in
     p' = exec (showMessage "Please select both an employee and a role." "red") p /\
     messageArea p' = alert "Please select both an employee and a role." /\
     sent p' = sent p /\
     employeeListDiv p' = employeeListDiv p /\
     employeeSelect p' = employeeSelect p /\
     roleSelect p' = roleSelect p /\
     newEmployeeNameInput p' = newEmployeeNameInput p /\
     createEmployeeBtn p' = createEmployeeBtn p /\
     assignBtn p' = assignBtn p).
Proof.
  split; intros p H p'.
  - assert (E : p' = exec (showMessage name_required "red") p).
    { subst p'. unfold exec, handleCreateEmployee. now rewrite H. }
    split; [exact E|]. rewrite E. repeat split.
  - assert (E : p' = exec (showMessage selection_required "red") p).
    { subst p'. unfold exec, handleAssignRole.
      destruct H as [-> | ->]; [reflexivity|].
      now rewrite orb_true_r. }
    split; [exact E|]. rewrite E. repeat split.
Qed.

Lemma validation_is_local_witness :
  sent (exec handleCreateEmployee (with_newEmployeeNameInput "   " initial_page)) = [] /\
  sent (exec handleAssignRole initial_page) = [].
Proof.
  split.
  - exact (proj1 (proj2 (proj2
      (proj1 validation_is_local (with_newEmployeeNameInput "   " initial_page)
         eq_refl)))).
  - exact (proj1 (proj2 (proj2
      (proj2 validation_is_local initial_page (or_introl eq_refl))))).
Defined.

(** ** MutationHandlers: errors and the state of the trigger *)

Lemma exec_try_finally body final p :
  exec (try_finally body final) p = final (exec body p).
Proof. unfold exec, try_finally. now destruct (body p). Qed.



Lemma run_app es1 es2 p : run (es1 ++ es2) p = run es2 (run es1 p).
Proof. unfold run. apply fold_left_app. Qed.

Lemma create_failure_page body p :
  exec (handleCreateEmployee_resume (Response false (Normal (Value body)))) p
  = with_createEmployeeBtn (idle "Create Employee")
      (exec (showMessage (or_else (error body) "Failed to create employee.") "red")
         (with_console
            (console p ++ [Error (or_else (error body) "Failed to create employee.")]) p)).
Proof. reflexivity. Qed.

Lemma assign_failure_page body p :
  exec (handleAssignRole_resume (Response false (Normal (Value body)))) p
  = with_assignBtn (idle "Assign Role")
      (exec (showMessage (or_else (error body) "Failed to assign role.") "red")
         (with_console
            (console p ++ [Error (or_else (error body) "Failed to assign role.")]) p)).
Proof. reflexivity. Qed.

Lemma create_rejection_page (o : Outcome (Field Body)) e p :
  caught_early o = Some e ->
  exec (handleCreateEmployee_resume o) p
  = with_createEmployeeBtn (idle "Create Employee")
      (exec (showMessage (message e) "red") (with_console (console p ++ [e]) p)).
Proof.
  destruct o as [x | [|] [[| |body]|x]]; simpl; intros H;
    first [discriminate | injection H as <-; reflexivity].
Qed.

Lemma assign_rejection_page (o : Outcome (Field Body)) e p :
  caught_early o = Some e ->
  exec (handleAssignRole_resume o) p
  = with_assignBtn (idle "Assign Role")
      (exec (showMessage (message e) "red") (with_console (console p ++ [e]) p)).
Proof.
  destruct o as [x | [|] [[| |body]|x]]; simpl; intros H;
    first [discriminate | injection H as <-; reflexivity].
Qed.

(** The three ways a mutation request ends for its handler. *)
Lemma outcome_cases (o : Outcome (Field Body)) :
  (exists e, caught_early o = Some e) \/
  (exists body, o = Response true (Normal (Value body))) \/
  (exists body, o = Response false (Normal (Value body))).
Proof.
  destruct o as [x | [|] [[| |body]|x]]; simpl; eauto.
Qed.




(** C5. A click whose input passes validation puts the trigger in its busy
    state (disabled, busy label) and sends the request; when the request
    settles, with any outcome and after any other events, the trigger is
    enabled under its label again, which is the state it had before the
    click.  The part of a handler that runs after the request leaves its
    trigger enabled from whatever page it starts. *)
Theorem control_restored :
  (forall p es o,
     createEmployeeBtn p = idle "Create Employee" ->
     trim (newEmployeeNameInput p) <> EmptyString ->
     let busy_page := step ClickCreate p in
     createEmployeeBtn busy_page = busy "Creating..." /\
     control (createEmployeeBtn busy_page) = Busy /\
     sent busy_page = (sent p ++ [PostEmployee (trim (newEmployeeNameInput p))])%list /\
     createEmployeeBtn (run (es ++ [CreateSettles o]) busy_page) = createEmployeeBtn p /\
     control (createEmployeeBtn (run (es ++ [CreateSettles o]) busy_page)) = Idle) /\
  (forall p es o,
     assignBtn p = idle "Assign Role" ->
     select_value (employeeSelect p) <> EmptyString ->
     select_value (roleSelect p) <> EmptyString ->
     let busy_page := step ClickAssign p in
     assignBtn busy_page = busy "Assigning..." /\
     control (assignBtn busy_page) = Busy /\
     sent busy_page
       = (sent p ++ [PutAssignRole (select_value (employeeSelect p))
                                   (select_value (roleSelect p))])%list /\
     assignBtn (run (es ++ [AssignSettles o]) busy_page) = assignBtn p /\
     control (assignBtn (run (es ++ [AssignSettles o]) busy_page)) = Idle) /\
  (forall o p,
     createEmployeeBtn (exec (handleCreateEmployee_resume o) p) = idle "Create Employee" /\
     assignBtn (exec (handleAssignRole_resume o) p) = idle "Assign Role").
Proof.
  assert (Hfinal : forall o p,
     createEmployeeBtn (exec (handleCreateEmployee_resume o) p) = idle "Create Employee" /\
     assignBtn (exec (handleAssignRole_resume o) p) = idle "Assign Role").
  { intros o p. unfold handleCreateEmployee_resume, handleAssignRole_resume.
    rewrite !exec_try_finally. split; reflexivity. }
  split; [|split; [|exact Hfinal]].
  - intros p es o Hidle Hname busy_page.
    assert (E : busy_page
                = exec (modify (with_createEmployeeBtn (busy "Creating...")) ;;
                        fetch (PostEmployee (trim (newEmployeeNameInput p)))) p).
    { subst busy_page. unfold step, click. rewrite Hidle. simpl.
      unfold exec, handleCreateEmployee.
      apply String.eqb_neq in Hname. now rewrite Hname. }
    rewrite run_app. simpl. rewrite (proj1 (Hfinal o _)), Hidle, E.
    repeat split.
  - intros p es o Hidle He Hr busy_page.
    assert (E : busy_page
                = exec (modify (with_assignBtn (busy "Assigning...")) ;;
                        fetch (PutAssignRole (select_value (employeeSelect p))
                                             (select_value (roleSelect p)))) p).
    { subst busy_page. unfold step, click. rewrite Hidle. simpl.
      unfold exec, handleAssignRole.
      apply String.eqb_neq in He, Hr. now rewrite He, Hr. }
    rewrite run_app. simpl. rewrite (proj2 (Hfinal o _)), Hidle, E.
    repeat split.
Qed.

Lemma control_restored_witness :
  createEmployeeBtn
    (run ([Elapse 100%N; ClickCreate] ++ [CreateSettles (Rejected (TypeError "Failed to fetch"))])
       (step ClickCreate (with_newEmployeeNameInput "Ada" initial_page)))
  = idle "Create Employee".
Proof.
  refine (proj1 (proj2 (proj2 (proj2
    (proj1 control_restored (with_newEmployeeNameInput "Ada" initial_page)
       [Elapse 100%N; ClickCreate] (Rejected (TypeError "Failed to fetch")) eq_refl _))))).
  discriminate.
Defined.

(** ** Lists of nodes and options *)

Lemma find_card_some key nodes i :
  find_card key nodes = Some i ->
  i < List.length nodes /\
  exists n, nth_error nodes i = Some n /\ has_key key n = true.
Proof.
  revert i. induction nodes as [|n nodes IH]; simpl; intros i H; [discriminate|].
  destruct (has_key key n) eqn:Hn.
  - injection H as <-. split; [lia|]. now exists n.
  - destruct (find_card key nodes) as [j|]; [|discriminate].
    injection H as <-. destruct (IH j eq_refl) as [Hlt Hn']. split; [lia | exact Hn'].
Qed.

Lemma find_card_first key nodes i :
  find_card key nodes = Some i ->
  forall j n, j < i -> nth_error nodes j = Some n -> has_key key n = false.
Proof.
  revert i. induction nodes as [|m nodes IH]; simpl; intros i H j n Hj Hn;
    [discriminate|].
  destruct (has_key key m) eqn:Hm.
  - injection H as <-. lia.
  - destruct (find_card key nodes) as [k|]; [|discriminate].
    injection H as <-. destruct j as [|j]; simpl in Hn.
    + now injection Hn as <-.
    + apply (IH k eq_refl j n); [lia | exact Hn].
Qed.

Lemma find_card_none key nodes :
  find_card key nodes = None -> forall n, In n nodes -> has_key key n = false.
Proof.
  induction nodes as [|m nodes IH]; simpl; intros H n Hin; [contradiction|].
  destruct (has_key key m) eqn:Hm; [discriminate|].
  destruct (find_card key nodes); [discriminate|].
  destruct Hin as [<- | Hin]; [exact Hm | now apply IH].
Qed.

Lemma find_card_replace_at key nodes i n :
  find_card key nodes = Some i ->
  has_key key n = true ->
  find_card key (replace_at i n nodes) = Some i.
Proof.
  revert i. induction nodes as [|m nodes IH]; simpl; intros i H Hn; [discriminate|].
  destruct (has_key key m) eqn:Hm.
  - injection H as <-. simpl. now rewrite Hn.
  - destruct (find_card key nodes) as [j|]; [|discriminate].
    injection H as <-. simpl. now rewrite Hm, (IH j eq_refl Hn).
Qed.

Lemma find_card_app key nodes n :
  has_key key n = true ->
  find_card key (nodes ++ [n])
  = Some (match find_card key nodes with
          | Some i => i
          | None => List.length nodes
          end).
Proof.
  intros Hn. induction nodes as [|m nodes IH]; simpl.
  - now rewrite Hn.
  - destruct (has_key key m); [reflexivity|].
    rewrite IH. now destruct (find_card key nodes).
Qed.

Lemma nth_error_replace_at_eq {A} (l : list A) i x :
  i < List.length l -> nth_error (replace_at i x l) i = Some x.
Proof.
  revert i. induction l as [|y l IH]; simpl; intros i Hi; [lia|].
  destruct i as [|i]; simpl; [reflexivity | apply IH; lia].
Qed.



Lemma replace_at_twice {A} (l : list A) i x y :
  replace_at i y (replace_at i x l) = replace_at i y l.
Proof.
  revert i. induction l as [|z l IH]; simpl; intros i; [reflexivity|].
  destruct i; simpl; [reflexivity | now rewrite IH].
Qed.

Lemma mark_at_replaced nodes i n :
  i < List.length nodes ->
  mark_at i (replace_at i n nodes) = replace_at i (mark n) nodes.
Proof.
  intros Hi. unfold mark_at.
  now rewrite nth_error_replace_at_eq, replace_at_twice.
Qed.











(** ** MutationHandlers: the pages they leave *)

Ltac run_m :=
  cbv [exec try_finally try_catch bind await throw ret lift modify showMessage
       property_of setTimeout console_error fetch fetchEmployees getElementById
       insertAdjacentHTML_beforeend set_outerHTML new_card highlight
       employeeSelect roleSelect assignBtn employeeListDiv newEmployeeNameInput
       createEmployeeBtn messageArea timers now next_handle sent console
       with_employeeSelect with_roleSelect with_assignBtn with_employeeListDiv
       with_newEmployeeNameInput with_createEmployeeBtn with_messageArea
       with_timers with_now with_next_handle with_sent with_console
       fst snd negb] in *.

Lemma create_success_page body cs p i :
  assigned_courses (employee body) = Value cs ->
  find_card (card_key (employee_id (employee body)))
    (without_sentinel (employeeListDiv p)
       ++ [CardNode (card_element (next_handle p) (employee body)
                       (card_template (employee body) cs))]) = Some i ->
  exec (handleCreateEmployee_resume (Response true (Normal (Value body)))) p
  = let emp := employee body in
    let nodes :=
      mark_at i
        (without_sentinel (employeeListDiv p)
           ++ [CardNode (card_element (next_handle p) emp (card_template emp cs))]) in
    {| employeeSelect :=
         set_select_value (employee_id emp)
           (appendChild (employee_option emp) (employeeSelect p));
       roleSelect := roleSelect p;
       assignBtn := assignBtn p;
       employeeListDiv := nodes;
       newEmployeeNameInput := EmptyString;
       createEmployeeBtn := idle "Create Employee";
       messageArea := success_created emp;
       timers :=
         timers p
           ++ [ {| due := (now p + 5000)%N; action := ClearMessage |} ]
           ++ [ {| due := (now p + 2000)%N; action := RemoveUpdated (handle_at i nodes) |} ];
       now := now p;
       next_handle := S (next_handle p);
       sent := sent p;
       console := console p |}.
Proof.
  intros Hcs Hfind. unfold handleCreateEmployee_resume, createEmployee_success.
  destruct p as [es rs ab l inp cb ma tm nw nh st co]. run_m.
  rewrite (renderEmployeeCard_array _ _ Hcs).
  unfold without_sentinel in *.
  destruct (first_paragraph l) as [t|]; [destruct (t =? sentinel)|];
    run_m; rewrite Hfind; unfold success_created; now rewrite <- app_assoc.
Qed.

Lemma create_failure_to_render_page body e p :
  renderEmployeeCard (employee body) = Throw e ->
  exec (handleCreateEmployee_resume (Response true (Normal (Value body)))) p
  = {| employeeSelect := employeeSelect p;
       roleSelect := roleSelect p;
       assignBtn := assignBtn p;
       employeeListDiv := without_sentinel (employeeListDiv p);
       newEmployeeNameInput := newEmployeeNameInput p;
       createEmployeeBtn := idle "Create Employee";
       messageArea := alert (message e);
       timers :=
         timers p
           ++ [ {| due := (now p + 5000)%N; action := ClearMessage |} ]
           ++ [ {| due := (now p + 5000)%N; action := ClearMessage |} ];
       now := now p;
       next_handle := next_handle p;
       sent := sent p;
       console := console p ++ [e] |}.
Proof.
  intros Hthrow. unfold handleCreateEmployee_resume, createEmployee_success.
  destruct p as [es rs ab l inp cb ma tm nw nh st co]. run_m.
  rewrite Hthrow. unfold without_sentinel.
  destruct (first_paragraph l) as [t|]; [destruct (t =? sentinel)|];
    run_m; unfold alert; now rewrite <- app_assoc.
Qed.

Lemma assign_success_page body cs p i :
  assigned_courses (employee body) = Value cs ->
  find_card (card_key (employee_id (employee body))) (employeeListDiv p) = Some i ->
  exec (handleAssignRole_resume (Response true (Normal (Value body)))) p
  = let emp := employee body in
    {| employeeSelect := employeeSelect p;
       roleSelect := roleSelect p;
       assignBtn := idle "Assign Role";
       employeeListDiv :=
         replace_at i
           (mark (CardNode (card_element (next_handle p) emp (card_template emp cs))))
           (employeeListDiv p);
       newEmployeeNameInput := newEmployeeNameInput p;
       createEmployeeBtn := createEmployeeBtn p;
       messageArea := success_assigned emp;
       timers :=
         timers p
           ++ [ {| due := (now p + 5000)%N; action := ClearMessage |} ]
           ++ [ {| due := (now p + 2000)%N; action := RemoveUpdated (next_handle p) |} ];
       now := now p;
       next_handle := S (next_handle p);
       sent := sent p;
       console := console p |}.
Proof.
  intros Hcs Hfind. unfold handleAssignRole_resume, assignRole_success.
  destruct (find_card_some _ _ _ Hfind) as [Hlt _].
  destruct p as [es rs ab l inp cb ma tm nw nh st co]. run_m.
  rewrite Hfind, (renderEmployeeCard_array _ _ Hcs).
  rewrite (find_card_replace_at _ l i _ Hfind)
    by (simpl; apply String.eqb_refl).
  rewrite (mark_at_replaced l i _ Hlt).
  unfold handle_at. rewrite (nth_error_replace_at_eq l i _ Hlt).
  unfold success_assigned. simpl. now rewrite <- app_assoc.
Qed.

Lemma assign_failure_to_render_page body e p i :
  renderEmployeeCard (employee body) = Throw e ->
  find_card (card_key (employee_id (employee body))) (employeeListDiv p) = Some i ->
  exec (handleAssignRole_resume (Response true (Normal (Value body)))) p
  = {| employeeSelect := employeeSelect p;
       roleSelect := roleSelect p;
       assignBtn := idle "Assign Role";
       employeeListDiv := employeeListDiv p;
       newEmployeeNameInput := newEmployeeNameInput p;
       createEmployeeBtn := createEmployeeBtn p;
       messageArea := alert (message e);
       timers :=
         timers p
           ++ [ {| due := (now p + 5000)%N; action := ClearMessage |} ]
           ++ [ {| due := (now p + 5000)%N; action := ClearMessage |} ];
       now := now p;
       next_handle := next_handle p;
       sent := sent p;
       console := console p ++ [e] |}.
Proof.
  intros Hthrow Hfind. unfold handleAssignRole_resume, assignRole_success.
  destruct p as [es rs ab l inp cb ma tm nw nh st co]. run_m.
  rewrite Hfind, Hthrow. unfold alert. now rewrite <- app_assoc.
Qed.

Lemma assign_fallback_page body p :
  find_card (card_key (employee_id (employee body))) (employeeListDiv p) = None ->
  exec (handleAssignRole_resume (Response true (Normal (Value body)))) p
  = {| employeeSelect := employeeSelect p;
       roleSelect := roleSelect p;
       assignBtn := idle "Assign Role";
       employeeListDiv := employeeListDiv p;
       newEmployeeNameInput := newEmployeeNameInput p;
       createEmployeeBtn := createEmployeeBtn p;
       messageArea := success_assigned (employee body);
       timers := timers p ++ [ {| due := (now p + 5000)%N; action := ClearMessage |} ];
       now := now p;
       next_handle := next_handle p;
       sent := sent p ++ [GetEmployees];
       console := console p |}.
Proof.
  intros Hfind. unfold handleAssignRole_resume, assignRole_success.
  destruct p as [es rs ab l inp cb ma tm nw nh st co]. run_m.
  now rewrite Hfind.
Qed.

(** ** MutationHandlers: success *)

Lemma renderEmployeeCard_cases emp :
  (exists cs, assigned_courses emp = Value cs) \/
  (exists e, renderEmployeeCard emp = Throw e).
Proof.
  unfold renderEmployeeCard.
  destruct (assigned_courses emp) as [| |cs]; eauto.
Qed.




(** When the reload settles with employees of the data model, the
    selector and the list are rebuilt from the reply. *)
Lemma reload_rebuilds emps ok p :
  Forall has_courses emps ->
  let p' := exec (fetchEmployees_resume (Response ok (Normal (Value emps)))) p in
  options (employeeSelect p') = map employee_option emps /\
  renderEmployeeList_markup (Value emps) = Normal (list_markup (employeeListDiv p')).
Proof.
  intros Hwf p'. subst p'.
  pose proof (renderEmployeeList_refines (Value emps)
                (with_employeeSelect
                   (set_select_options (map employee_option emps) (employeeSelect p)) p))
    as H.
  assert (Hm : exists markup, renderEmployeeList_markup (Value emps) = Normal markup).
  { destruct emps as [|e emps]; [simpl; eauto|].
    unfold renderEmployeeList_markup.
    rewrite (render_all_total (e :: emps) Hwf). eauto. }
  destruct Hm as [markup Hm]. rewrite Hm in *.
  destruct H as (q & Hq & Hmarkup & Hrest).
  unfold fetchEmployees_resume, exec, try_catch, bind, await, ret, modify.
  cbn [snd]. rewrite Hq. cbn [snd]. split; [|now rewrite Hmarkup].
  rewrite Hrest. reflexivity.
Qed.

(** ** An invariant of the list: the sentinel stands alone *)

Lemma no_sentinel_app l1 l2 :
  no_sentinel l1 -> no_sentinel l2 -> no_sentinel (l1 ++ l2).
Proof. unfold no_sentinel. intros H1 H2. now rewrite forallb_app, H1, H2. Qed.

Lemma no_sentinel_replace_at nodes i n :
  no_sentinel nodes -> is_sentinel n = false -> no_sentinel (replace_at i n nodes).
Proof.
  unfold no_sentinel. revert i.
  induction nodes as [|m nodes IH]; simpl; intros i H Hn; [reflexivity|].
  apply andb_true_iff in H. destruct H as [Hm H].
  destruct i as [|i]; simpl.
  - now rewrite Hn, H.
  - now rewrite Hm, IH.
Qed.

Lemma is_sentinel_mark n : is_sentinel (mark n) = is_sentinel n.
Proof. now destruct n. Qed.

Lemma no_sentinel_nth nodes i n :
  no_sentinel nodes -> nth_error nodes i = Some n -> is_sentinel n = false.
Proof.
  unfold no_sentinel. intros H Hn.
  apply nth_error_In in Hn.
  rewrite forallb_forall in H. specialize (H n Hn).
  now destruct (is_sentinel n).
Qed.

Lemma no_sentinel_mark_at nodes i : no_sentinel nodes -> no_sentinel (mark_at i nodes).
Proof.
  intros H. unfold mark_at. destruct (nth_error nodes i) as [n|] eqn:Hn; [|exact H].
  apply no_sentinel_replace_at; [exact H|].
  rewrite is_sentinel_mark. now apply (no_sentinel_nth nodes i).
Qed.

Lemma no_sentinel_unmark nodes h : no_sentinel nodes -> no_sentinel (map (unmark h) nodes).
Proof.
  unfold no_sentinel. induction nodes as [|n nodes IH]; simpl; intros H; [reflexivity|].
  apply andb_true_iff in H. destruct H as [Hn H]. rewrite (IH H), andb_true_r.
  destruct n as [c t|c]; simpl in *; [exact Hn|].
  now destruct (handle c =? h)%nat.
Qed.

Lemma no_sentinel_parse_cards h emps htmls : no_sentinel (parse_cards h emps htmls).
Proof.
  unfold no_sentinel. revert h htmls.
  induction emps as [|e emps IH]; intros h [|x xs]; simpl; auto.
Qed.

Lemma without_sentinel_clean nodes :
  sentinel_alone nodes -> no_sentinel (without_sentinel nodes).
Proof.
  intros [-> | H]; [reflexivity|]. unfold without_sentinel.
  destruct (first_paragraph nodes) as [t|]; [|exact H].
  destruct (t =? sentinel); [reflexivity | exact H].
Qed.

Lemma sentinel_alone_unmark nodes h :
  sentinel_alone nodes -> sentinel_alone (map (unmark h) nodes).
Proof.
  intros [-> | H]; [now left | right; now apply no_sentinel_unmark].
Qed.

Lemma fire_all_list ready q :
  sentinel_alone (employeeListDiv q) ->
  sentinel_alone
    (employeeListDiv (fold_left (fun st x => fire (action x) st) ready q)).
Proof.
  revert q. induction ready as [|x ready IH]; intros q H; simpl; [exact H|].
  apply IH. destruct (action x); simpl; [exact H|].
  now apply sentinel_alone_unmark.
Qed.

Lemma createEmployee_resume_list o p :
  sentinel_alone (employeeListDiv p) ->
  sentinel_alone (employeeListDiv (exec (handleCreateEmployee_resume o) p)).
Proof.
  intros H. destruct (outcome_cases o) as [[e0 Hearly] | [[body ->] | [body ->]]].
  - now rewrite (create_rejection_page o e0 p Hearly).
  - destruct (renderEmployeeCard_cases (employee body)) as [[cs Hcs] | [e He]].
    + pose proof (find_card_app (card_key (employee_id (employee body)))
                    (without_sentinel (employeeListDiv p))
                    (CardNode (card_element (next_handle p) (employee body)
                                 (card_template (employee body) cs)))) as Hfind.
      rewrite (create_success_page body cs p _ Hcs)
        by (apply Hfind; simpl; apply String.eqb_refl).
      right. cbn [employeeListDiv]. apply no_sentinel_mark_at, no_sentinel_app.
      * now apply without_sentinel_clean.
      * reflexivity.
    + rewrite (create_failure_to_render_page body e p He).
      right. now apply without_sentinel_clean.
  - now rewrite create_failure_page.
Qed.

Lemma assignRole_resume_list o p :
  sentinel_alone (employeeListDiv p) ->
  sentinel_alone (employeeListDiv (exec (handleAssignRole_resume o) p)).
Proof.
  intros H. destruct (outcome_cases o) as [[e0 Hearly] | [[body ->] | [body ->]]].
  - now rewrite (assign_rejection_page o e0 p Hearly).
  - destruct (find_card (card_key (employee_id (employee body))) (employeeListDiv p))
      as [i|] eqn:Hfind.
    + destruct (renderEmployeeCard_cases (employee body)) as [[cs Hcs] | [e He]].
      * rewrite (assign_success_page body cs p i Hcs Hfind). cbn [employeeListDiv].
        destruct H as [E | H].
        { rewrite E in Hfind. discriminate. }
        right. now apply no_sentinel_replace_at.
      * now rewrite (assign_failure_to_render_page body e p i He Hfind).
    + now rewrite (assign_fallback_page body p Hfind).
  - now rewrite assign_failure_page.
Qed.

Lemma fetchEmployees_resume_list o p :
  sentinel_alone (employeeListDiv (exec (fetchEmployees_resume o) p)).
Proof.
  assert (Herr : sentinel_alone [load_error]) by (right; reflexivity).
  destruct o as [e | ok [[| |emps]|e]]; try exact Herr.
  unfold fetchEmployees_resume, exec, try_catch, bind, await, ret, modify.
  cbn [snd]. destruct emps as [|e emps].
  - now left.
  - unfold renderEmployeeList, bind, lift, set_cards, modify.
    destruct (render_all (e :: emps)) as [htmls|x]; [|exact Herr].
    right. cbn [snd employeeListDiv with_next_handle with_employeeListDiv].
    apply no_sentinel_parse_cards.
Qed.

Lemma fetchRoles_resume_list o p :
  employeeListDiv (exec (fetchRoles_resume o) p) = employeeListDiv p.
Proof. destruct o as [e | ok [[| |roles]|e]]; reflexivity. Qed.

(** Every event keeps the sentinel alone, so it is so on every page the
    script reaches. *)
Lemma step_keeps_sentinel_alone e p :
  sentinel_alone (employeeListDiv p) ->
  sentinel_alone (employeeListDiv (step e p)).
Proof.
  intros H. destruct e; simpl; try exact H.
  - unfold click. destruct (disabled (createEmployeeBtn p)); [exact H|].
    unfold exec, handleCreateEmployee.
    now destruct (trim (newEmployeeNameInput p) =? EmptyString).
  - unfold click. destruct (disabled (assignBtn p)); [exact H|].
    unfold exec, handleAssignRole.
    now destruct ((select_value (employeeSelect p) =? EmptyString)
                  || (select_value (roleSelect p) =? EmptyString)).
  - now apply createEmployee_resume_list.
  - now apply assignRole_resume_list.
  - apply fetchEmployees_resume_list.
  - now rewrite fetchRoles_resume_list.
  - unfold advance. now apply fire_all_list.
Qed.

Lemma run_keeps_sentinel_alone es p :
  sentinel_alone (employeeListDiv p) ->
  sentinel_alone (employeeListDiv (run es p)).
Proof.
  revert p. induction es as [|e es IH]; intros p H; [exact H|].
  apply (IH (step e p)). now apply step_keeps_sentinel_alone.
Qed.

Lemma reachable_sentinel_alone es :
  sentinel_alone (employeeListDiv (run es initial_page)).
Proof. apply run_keeps_sentinel_alone. right. reflexivity. Qed.

(** ** MutationHandlers: creation *)

Lemma without_sentinel_shown :
  without_sentinel [Paragraph None "No employees found."] = [].
Proof. reflexivity. Qed.

(** The first paragraph of a card is never the sentinel, so a list that
    starts with a card is kept. *)
Lemma without_sentinel_cards h emp html rest :
  without_sentinel (CardNode (card_element h emp html) :: rest)
  = CardNode (card_element h emp html) :: rest.
Proof. reflexivity. Qed.




(** C10 (as amended). [renderEmployeeCard] reads the length of
    [assigned_courses] without a guard: it returns markup whenever the
    property is an array, empty or not, and throws a [TypeError] whenever
    it is null or absent.  Hence a successful [CreateEmployee] response,
    and a successful [AssignRole] response whose card is in the list, must
    carry the array: without it the error is caught, logged and shown, no
    card is added or replaced and the selector and the input are
    untouched.  A successful [AssignRole] response whose card is not in the
    list is not rendered and completes without the array: the success
    message stays and the reload is requested. *)
Theorem assigned_courses_required :
  (forall emp cs,
     assigned_courses emp = Value cs ->
     renderEmployeeCard emp = Normal (card_template emp cs)) /\
  (forall emp,
     assigned_courses emp = Undefined \/ assigned_courses emp = Null ->
     exists msg,
       renderEmployeeCard emp = Throw (TypeError msg) /\
       (forall body p,
          employee body = emp ->
          let p' := exec (handleCreateEmployee_resume (Response true (Normal (Value body)))) p in
          console p' = (console p ++ [TypeError msg])%list /\
          messageArea p' = alert msg /\
          employeeListDiv p' = without_sentinel (employeeListDiv p) /\
          employeeSelect p' = employeeSelect p /\
          newEmployeeNameInput p' = newEmployeeNameInput p) /\
       (forall body p i,
          employee body = emp ->
          find_card (card_key (employee_id emp)) (employeeListDiv p) = Some i ->
          let p' := exec (handleAssignRole_resume (Response true (Normal (Value body)))) p in
          console p' = (console p ++ [TypeError msg])%list /\
          messageArea p' = alert msg /\
          employeeListDiv p' = employeeListDiv p /\
          sent p' = sent p)) /\
  (forall body p,
     find_card (card_key (employee_id (employee body))) (employeeListDiv p) = None ->
     let p' := exec (handleAssignRole_resume (Response true (Normal (Value body)))) p in
     console p' = console p /\
     messageArea p' = success_assigned (employee body) /\
     employeeListDiv p' = employeeListDiv p /\
     sent p' = (sent p ++ [GetEmployees])%list).
Proof.
  split; [exact renderEmployeeCard_array|]. split.
  - intros emp Hno.
    assert (Hthrow : exists msg, renderEmployeeCard emp = Throw (TypeError msg)).
    { unfold renderEmployeeCard, cannot_read.
      destruct Hno as [-> | ->]; eexists; reflexivity. }
    destruct Hthrow as [msg Hthrow]. exists msg. split; [exact Hthrow|]. split.
    + intros body p <- p'. subst p'.
      rewrite (create_failure_to_render_page body _ p Hthrow). repeat split.
    + intros body p i <- Hfind p'. subst p'.
      rewrite (assign_failure_to_render_page body _ p i Hthrow Hfind). repeat split.
  - intros body p Hfind p'. subst p'.
    rewrite (assign_fallback_page body p Hfind). repeat split.
Qed.

Lemma assigned_courses_required_witness :
  exists msg,
    renderEmployeeCard bo_bare = Throw (TypeError msg) /\
    messageArea
      (exec (handleAssignRole_resume (Response true (Normal (Value (reply bo_bare)))))
         (loaded_page [bo_before] [trainer]))
    = alert msg.
Proof.
  destruct (proj1 (proj2 assigned_courses_required) bo_bare (or_introl eq_refl))
    as (msg & Hthrow & _ & Hassign).
  exists msg. split; [exact Hthrow|].
  exact (proj1 (proj2 (Hassign (reply bo_bare) (loaded_page [bo_before] [trainer]) 0
                         eq_refl eq_refl))).
Defined.

(** C10 as stated fails in its last clause.  A successful [AssignRole]
    response without [assigned_courses], for an employee whose card is not
    in the list (the list shows the load error here), is handled with no
    error: the success message is shown, nothing is logged and the reload
    is requested. *)
Lemma assignRole_fallback_without_courses :
  let p := loaded_page [bo_bare] [trainer] in
  let p' := run [ ClickAssign;
                  AssignSettles (Response true (Normal (Value (reply bo_bare)))) ] p in
  assigned_courses bo_bare = Undefined /\
  select_value (employeeSelect p) = "7" /\
  employeeListDiv p = [load_error] /\
  messageArea p' = success_assigned bo_bare /\
  console p' = console p /\
  sent p' = [GetEmployees; GetRoles; PutAssignRole "7" "3"; GetEmployees].
Proof. repeat split. Qed.

(** ** Notifier *)

Lemma existsb_insert_by_due f t q :
  existsb f (insert_by_due t q) = f t || existsb f q.
Proof.
  induction q as [|u q IH]; simpl; [reflexivity|].
  destruct (due t <=? due u)%N; simpl; [reflexivity|].
  rewrite IH. now destruct (f t), (f u).
Qed.

Lemma existsb_by_due f q : existsb f (by_due q) = existsb f q.
Proof.
  induction q as [|t q IH]; simpl; [reflexivity|].
  unfold by_due in *. simpl. now rewrite existsb_insert_by_due, IH.
Qed.

Lemma existsb_filter {A} (f g : A -> bool) l :
  existsb f (filter g l) = existsb (fun x => f x && g x) l.
Proof.
  induction l as [|x l IH]; simpl; [reflexivity|].
  destruct (g x); simpl; rewrite IH; [now rewrite andb_true_r|].
  now rewrite andb_false_r.
Qed.

Lemma fire_all_message ready q :
  messageArea (fold_left (fun st x => fire (action x) st) ready q)
  = if existsb is_clear ready then cleared (messageArea q) else messageArea q.
Proof.
  revert q. induction ready as [|x ready IH]; intros q; simpl; [reflexivity|].
  rewrite IH. unfold is_clear at 2. destruct (action x); simpl.
  - now destruct (existsb is_clear ready).
  - reflexivity.
Qed.

Lemma fire_all_timers ready q :
  timers (fold_left (fun st x => fire (action x) st) ready q) = timers q.
Proof.
  revert q. induction ready as [|x ready IH]; intros q; simpl; [reflexivity|].
  rewrite IH. now destruct (action x).
Qed.

Lemma advance_message ms p :
  messageArea (advance ms p)
  = if clear_due (now p + ms)%N (timers p)
    then cleared (messageArea p)
    else messageArea p.
Proof.
  unfold advance, clear_due.
  now rewrite fire_all_message, existsb_by_due, existsb_filter.
Qed.

Lemma advance_timers ms p :
  timers (advance ms p)
  = filter (fun x => negb (is_due (now p + ms)%N x)) (timers p).
Proof. unfold advance. now rewrite fire_all_timers. Qed.

Lemma clear_due_app t q1 q2 : clear_due t (q1 ++ q2) = clear_due t q1 || clear_due t q2.
Proof. unfold clear_due. apply existsb_app. Qed.

(** C8 (as amended). [showMessage] sets the text and the colour of the
    status line and schedules its clearing 5 seconds later, after the
    timers already pending, none of which is cancelled.  When time passes,
    the line is emptied as soon as any pending clearing falls due and keeps
    its text until then.  So a message is cleared 5 seconds after its call
    when nothing else intervenes, and earlier if the clearing scheduled for
    an earlier message is still pending: the text is last-write-wins, the
    timers are not. *)
Theorem showMessage_spec :
  (forall txt col p,
     let p' := exec (showMessage txt col) p in
     messageArea p' = {| textContent := txt; color := col |} /\
     timers p' = (timers p ++ [ {| due := (now p + 5000)%N; action := ClearMessage |} ])%list /\
     now p' = now p /\
     employeeListDiv p' = employeeListDiv p /\
     sent p' = sent p) /\
  (forall ms p,
     messageArea (advance ms p)
     = if clear_due (now p + ms)%N (timers p)
       then {| textContent := EmptyString; color := color (messageArea p) |}
       else messageArea p) /\
  (forall txt col p,
     textContent (messageArea (advance 5000%N (exec (showMessage txt col) p)))
     = EmptyString) /\
  (forall txt col ms p,
     (ms < 5000)%N ->
     clear_due (now p + ms)%N (timers p) = false ->
     messageArea (advance ms (exec (showMessage txt col) p))
     = {| textContent := txt; color := col |}) /\
  (forall txt col ms p earlier,
     In earlier (timers p) ->
     action earlier = ClearMessage ->
     (due earlier <= now p + ms)%N ->
     textContent (messageArea (advance ms (exec (showMessage txt col) p)))
     = EmptyString).
Proof.
  split; [intros; repeat split|].
  split; [exact advance_message|].
  split.
  { intros txt col p. rewrite advance_message, showMessage_page.
    cbn [timers now with_timers with_messageArea].
    rewrite clear_due_app.
    replace (clear_due (now p + 5000)%N
               [ {| due := (now p + 5000)%N; action := ClearMessage |} ]) with true.
    - now rewrite orb_true_r.
    - unfold clear_due, is_due, is_clear. simpl. now rewrite N.leb_refl. }
  split.
  { intros txt col ms p Hms Hnone. rewrite advance_message, showMessage_page.
    cbn [timers now with_timers with_messageArea messageArea].
    rewrite clear_due_app, Hnone. unfold clear_due, is_due, is_clear. simpl.
    destruct (N.leb_spec (now p + 5000)%N (now p + ms)%N); [lia | reflexivity]. }
  intros txt col ms p earlier Hin Hact Hdue.
  rewrite advance_message, showMessage_page.
  cbn [timers now with_timers with_messageArea].
  rewrite clear_due_app.
  replace (clear_due (now p + ms)%N (timers p)) with true; [reflexivity|].
  symmetry. unfold clear_due. apply existsb_exists. exists earlier.
  split; [exact Hin|]. unfold is_clear, is_due. rewrite Hact. simpl.
  now apply N.leb_le.
Qed.

Lemma showMessage_spec_witness :
  messageArea (advance 4999%N (exec (showMessage "Saved." "green") initial_page))
  = {| textContent := "Saved."; color := "green" |} /\
  textContent
    (messageArea
       (advance 2000%N
          (exec (showMessage "second" "red")
             (advance 3000%N (exec (showMessage "first" "green") initial_page)))))
  = EmptyString.
Proof.
  split.
  - apply (proj1 (proj2 (proj2 (proj2 showMessage_spec)))); [lia | reflexivity].
  - apply (proj2 (proj2 (proj2 (proj2 showMessage_spec)))
             "second" "red" 2000%N
             (advance 3000%N (exec (showMessage "first" "green") initial_page))
             {| due := 5000%N; action := ClearMessage |}).
    + left. reflexivity.
    + reflexivity.
    + simpl. lia.
Defined.

(** C8 as stated fails: a later message is cleared by the timer of an
    earlier call.  A click on the create trigger with an empty name shows
    a first message at time 0, a click on the assign trigger with nothing
    selected shows a second one at time 3000; at time 5000 the timer of the
    first call empties the status line, 2 seconds after the second message
    appeared and while the timer of the second call is still pending for
    time 8000. *)
Lemma later_message_cleared_by_earlier_timer :
  let shown := run [ClickCreate; Elapse 3000%N; ClickAssign] initial_page in
  let later := step (Elapse 2000%N) shown in
  messageArea shown = alert "Please select both an employee and a role." /\
  now shown = 3000%N /\
  timers shown = [ {| due := 5000%N; action := ClearMessage |};
                   {| due := 8000%N; action := ClearMessage |} ] /\
  now later = 5000%N /\
  textContent (messageArea later) = EmptyString /\
  timers later = [ {| due := 8000%N; action := ClearMessage |} ].
Proof. repeat split. Qed.


(** * Further properties of the script *)

(** ** DataLoader *)

(** X1. Whatever the request ends with, [fetchEmployees] completes
    normally, and it overwrites the list with content that the outcome
    alone decides: the cards of the reply (or the sentinel), or the red
    error paragraph.  Nothing of the previous list remains, no request is
    sent and the status line is left alone. *)
Theorem fetchEmployees_replaces_list o p :
  let p' := exec (fetchEmployees_resume o) p in
  fst (fetchEmployees_resume o p) = Normal tt /\
  list_markup (employeeListDiv p') = markup_after_load o /\
  sent p' = sent p /\
  messageArea p' = messageArea p /\
  timers p' = timers p.
Proof.
  assert (Herr : list_markup [load_error] = load_error_markup) by reflexivity.
  destruct o as [e | ok [[| |emps]|e]]; try (now repeat split).
  pose proof (renderEmployeeList_refines (Value emps)
                (with_employeeSelect
                   (set_select_options (map employee_option emps) (employeeSelect p)) p))
    as H.
  unfold markup_after_load, fetchEmployees_resume, exec, try_catch, bind, await,
    ret, modify. cbn [snd fst].
  destruct (renderEmployeeList_markup (Value emps)) as [markup|x].
  - destruct H as (q & -> & Hq & Hrest). cbn [snd fst].
    split; [reflexivity|]. split; [exact Hq|].
    rewrite Hrest. now repeat split.
  - rewrite H. now repeat split.
Qed.



(** X3. A reply that is an array of employees of the data model, whose ids
    and names hold no markup character ([<], [>], [&], double quote),
    rebuilds both views, whatever the status of the response: the selector
    gets one option per employee, in order, the [i]-th valued by the id and
    labelled by the name of the [i]-th employee, the list reads as the
    joined cards (the sentinel for an empty array), and nothing is
    logged. *)
Theorem fetchEmployees_rebuilds_both_views ok emps p :
  Forall has_courses emps ->
  Forall plain_employee emps ->
  let p' := exec (fetchEmployees_resume (Response ok (Normal (Value emps)))) p in
  options (employeeSelect p') = map employee_option emps /\
  List.length (options (employeeSelect p')) = List.length emps /\
  (forall i e,
     nth_error emps i = Some e ->
     nth_error (options (employeeSelect p')) i
     = Some {| value := employee_id e; text := name e |}) /\
  list_markup (employeeListDiv p')
    = match emps with
      | [] => "<p>No employees found.</p>"
      | _ :: _ => join (map (fun e => card_template e (courses_of e)) emps)
      end /\
  console p' = console p /\
  roleSelect p' = roleSelect p.
Proof.
  intros Hwf _ p'. subst p'.
  assert (Hopt : forall i e,
            nth_error emps i = Some e ->
            nth_error (map employee_option emps) i
            = Some {| value := employee_id e; text := name e |}).
  { intros i e Hi. now rewrite nth_error_map, Hi. }
  destruct emps as [|e emps]; [now repeat split|].
  pose proof (render_all_total (e :: emps) Hwf) as Hall.
  unfold fetchEmployees_resume, exec, try_catch, bind, await, ret, modify,
    renderEmployeeList, lift, set_cards.
  cbn [snd fst]. rewrite Hall.
  cbn [snd fst employeeSelect employeeListDiv console roleSelect
       with_next_handle with_employeeListDiv with_employeeSelect].
  split; [reflexivity|]. split; [cbn [options set_select_options]; apply length_map|].
  split; [exact Hopt|].
  split; [|now split].
  apply parse_cards_markup. now apply render_all_cards.
Qed.

Lemma fetchEmployees_rebuilds_both_views_witness :
  let p' := exec (fetchEmployees_resume (Response false (Normal (Value [bo; ada]))))
              initial_page in
  options (employeeSelect p')
    = [ {| value := "7"; text := "Bo" |}; {| value := "42"; text := "Ada" |} ] /\
  console p' = [].
Proof.
  assert (Hwf : Forall has_courses [bo; ada]).
  { repeat constructor; eexists; reflexivity. }
  assert (Hplain : Forall plain_employee [bo; ada]).
  { repeat constructor. }
  destruct (fetchEmployees_rebuilds_both_views false [bo; ada] initial_page Hwf Hplain)
    as (Hopts & _ & _ & _ & Hconsole & _).
  split; [exact Hopts | exact Hconsole].
Defined.

(** X4. A failed load of the roles is silent.  Whatever the request ends
    with, [fetchRoles] completes normally and changes nothing but the role
    selector and the console.  On an array of roles nothing is logged, and
    when the ids and names of the roles hold no markup character the
    selector gets exactly one option per role, in order, the [i]-th valued
    by the id and labelled by the name of the [i]-th role.  On every other
    outcome the selector keeps its options and exactly one error is logged:
    the reason of the rejection, the error of the body that is not JSON, or
    the type error of calling [map] on [null] or on [undefined]; neither
    the status line nor the employee list nor the employee selector is
    touched. *)
Theorem fetchRoles_failure_is_silent o p :
  let p' := exec (fetchRoles_resume o) p in
  fst (fetchRoles_resume o p) = Normal tt /\
  p' = with_roleSelect (roleSelect p') (with_console (console p') p) /\
  (forall ok roles,
     o = Response ok (Normal (Value roles)) ->
     console p' = console p /\
     (Forall plain_role roles ->
      List.length (options (roleSelect p')) = List.length roles /\
      forall i r,
        nth_error roles i = Some r ->
        nth_error (options (roleSelect p')) i
        = Some {| value := role_id r; text := role_name r |})) /\
  (forall e,
     o = Rejected e \/ (exists ok, o = Response ok (Throw e)) ->
     roleSelect p' = roleSelect p /\
     console p' = (console p ++ [e])%list) /\
  (forall ok,
     o = Response ok (Normal Null) ->
     roleSelect p' = roleSelect p /\
     console p'
     = (console p ++ [TypeError "Cannot read properties of null (reading 'map')"])%list) /\
  (forall ok,
     o = Response ok (Normal Undefined) ->
     roleSelect p' = roleSelect p /\
     console p'
     = (console p
          ++ [TypeError "Cannot read properties of undefined (reading 'map')"])%list).
Proof.
  destruct p as [es rs ab l inp cb ma tm nw nh st co].
  intros p'. split; [now destruct o as [e | ok [[| |roles]|e]]|].
  split; [now destruct o as [e | ok [[| |roles]|e]]|].
  split.
  { intros ok roles ->. split; [reflexivity|]. intros _.
    subst p'. cbn. split; [apply length_map|].
    intros i r Hi. now rewrite nth_error_map, Hi. }
  split.
  { intros e [-> | [ok ->]]; now split. }
  split; intros ok ->; now split.
Qed.

Lemma fetchRoles_failure_is_silent_witness :
  options (roleSelect (exec (fetchRoles_resume (Response true (Normal (Value [trainer]))))
                         initial_page))
    = [ {| value := role_id trainer; text := role_name trainer |} ] /\
  console (exec (fetchRoles_resume (Rejected (TypeError "Failed to fetch")))
             (loaded_page [bo] [trainer]))
    = [ TypeError "Failed to fetch" ] /\
  options (roleSelect (exec (fetchRoles_resume (Rejected (TypeError "Failed to fetch")))
                         (loaded_page [bo] [trainer])))
    = [ {| value := role_id trainer; text := role_name trainer |} ].
Proof.
  pose proof (fetchRoles_failure_is_silent
                (Response true (Normal (Value [trainer]))) initial_page)
    as (_ & _ & Hok & _).
  destruct (Hok true [trainer] eq_refl) as [_ Hopts].
  destruct (Hopts ltac:(repeat constructor)) as [Hlen Hnth].
  pose proof (fetchRoles_failure_is_silent
                (Rejected (TypeError "Failed to fetch")) (loaded_page [bo] [trainer]))
    as (_ & _ & _ & Hfail & _).
  destruct (Hfail (TypeError "Failed to fetch") (or_introl eq_refl)) as [Hsel Hlog].
  split; [|split].
  - specialize (Hnth 0 trainer eq_refl).
    destruct (options (roleSelect (exec (fetchRoles_resume
                (Response true (Normal (Value [trainer])))) initial_page)))
      as [|x [|y l]]; try discriminate.
    simpl in Hnth. now injection Hnth as ->.
  - exact Hlog.
  - now rewrite Hsel.
Defined.



(** ** The requests sent *)

Lemma trimEnd_idempotent s : trimEnd (trimEnd s) = trimEnd s.
Proof.
  induction s as [|c s IH]; [reflexivity|]. simpl.
  destruct (trimEnd s) as [|d r] eqn:Hs.
  - destruct (is_space c) eqn:Hc; [reflexivity|]. simpl. now rewrite Hc.
  - change (trimEnd (String c (String d r)) = String c (String d r)).
    simpl. simpl in IH. now rewrite IH.
Qed.

Lemma trimEnd_head c r :
  is_space c = false -> exists r', trimEnd (String c r) = String c r'.
Proof.
  intros Hc. simpl. rewrite Hc. destruct (trimEnd r); eauto.
Qed.

Lemma trim_idempotent s : trim (trim s) = trim s.
Proof.
  unfold trim. destruct (trimStart s) as [|c r] eqn:Hs; [reflexivity|].
  pose proof (trimStart_head s c r Hs) as Hc.
  destruct (trimEnd_head c r Hc) as [r' Hr']. rewrite Hr'.
  simpl trimStart. rewrite Hc. rewrite <- Hr'. apply trimEnd_idempotent.
Qed.

Lemma fire_all_sent ready q :
  sent (fold_left (fun st x => fire (action x) st) ready q) = sent q.
Proof.
  revert q. induction ready as [|x ready IH]; intros q; simpl; [reflexivity|].
  rewrite IH. now destruct (action x).
Qed.

Lemma createEmployee_resume_sent o p :
  sent (exec (handleCreateEmployee_resume o) p) = sent p.
Proof.
  destruct o as [e | [|] [[| |body]|e]]; try reflexivity.
  destruct (renderEmployeeCard_cases (employee body)) as [[cs Hcs] | [e He]].
  - pose proof (find_card_app (card_key (employee_id (employee body)))
                  (without_sentinel (employeeListDiv p))
                  (CardNode (card_element (next_handle p) (employee body)
                               (card_template (employee body) cs)))) as Hfind.
    now rewrite (create_success_page body cs p _ Hcs)
      by (apply Hfind; simpl; apply String.eqb_refl).
  - now rewrite (create_failure_to_render_page body e p He).
Qed.

Lemma assignRole_resume_sent o p :
  sent (exec (handleAssignRole_resume o) p) = sent p \/
  sent (exec (handleAssignRole_resume o) p) = (sent p ++ [GetEmployees])%list.
Proof.
  destruct o as [e | [|] [[| |body]|e]]; try (left; reflexivity).
  destruct (find_card (card_key (employee_id (employee body))) (employeeListDiv p))
    as [i|] eqn:Hfind.
  - left. destruct (renderEmployeeCard_cases (employee body)) as [[cs Hcs] | [e He]].
    + now rewrite (assign_success_page body cs p i Hcs Hfind).
    + now rewrite (assign_failure_to_render_page body e p i He Hfind).
  - right. now rewrite (assign_fallback_page body p Hfind).
Qed.

Lemma fetchEmployees_resume_sent o p :
  sent (exec (fetchEmployees_resume o) p) = sent p.
Proof.
  destruct o as [e | ok [[| |[|e emps]]|e]]; try reflexivity.
  unfold fetchEmployees_resume, exec, try_catch, bind, await, ret, modify,
    renderEmployeeList, lift, set_cards, console_error.
  cbn [snd fst]. now destruct (render_all (e :: emps)).
Qed.

Lemma fetchRoles_resume_sent o p :
  sent (exec (fetchRoles_resume o) p) = sent p.
Proof. destruct o as [e | ok [[| |roles]|e]]; reflexivity. Qed.

Lemma step_sends_clean e p :
  Forall clean_request (sent p) -> Forall clean_request (sent (step e p)).
Proof.
  intros H. destruct e; simpl; try exact H.
  - apply Forall_app. split; [apply Forall_app; split; [exact H|]|];
      repeat constructor.
  - unfold click. destruct (disabled (createEmployeeBtn p)); [exact H|].
    unfold exec, handleCreateEmployee.
    destruct (String.eqb_spec (trim (newEmployeeNameInput p)) EmptyString) as [_|Hne];
      [exact H|].
    cbn. apply Forall_app. split; [exact H|].
    constructor; [|constructor]. split; [exact Hne | apply trim_idempotent].
  - unfold click. destruct (disabled (assignBtn p)); [exact H|].
    unfold exec, handleAssignRole.
    destruct (String.eqb_spec (select_value (employeeSelect p)) EmptyString) as [_|He];
      [exact H|].
    destruct (String.eqb_spec (select_value (roleSelect p)) EmptyString) as [_|Hr];
      [exact H|].
    cbn. apply Forall_app. split; [exact H|].
    constructor; [|constructor]. now split.
  - now rewrite createEmployee_resume_sent.
  - destruct (assignRole_resume_sent o p) as [-> | ->]; [exact H|].
    apply Forall_app. split; [exact H|]. repeat constructor.
  - now rewrite fetchEmployees_resume_sent.
  - now rewrite fetchRoles_resume_sent.
  - unfold advance. now rewrite fire_all_sent.
Qed.

(** X6. The script never sends a malformed mutation.  Along any sequence
    of events, every creation request carries a name that is not empty and
    has no white space around it (the trimmed input), and every assignment
    request an employee id and a role id that are not empty; the only other
    requests are the two loads. *)
Theorem requests_are_clean es p :
  Forall clean_request (sent p) ->
  Forall clean_request (sent (run es p)).
Proof.
  revert p. induction es as [|e es IH]; intros p H; [exact H|].
  apply (IH (step e p)). now apply step_sends_clean.
Qed.

Lemma requests_are_clean_witness :
  Forall clean_request
    (sent (run [ TypeName "  Ada "; ClickCreate; TypeName "   "; ClickAssign ]
             (loaded_page [bo] [trainer]))) /\
  sent (run [ TypeName "  Ada "; ClickCreate; TypeName "   "; ClickAssign ]
          (loaded_page [bo] [trainer]))
  = [GetEmployees; GetRoles; PostEmployee "Ada"; PutAssignRole "7" "3"].
Proof.
  split; [|reflexivity].
  apply (requests_are_clean _ (loaded_page [bo] [trainer])).
  repeat constructor.
Defined.

(** ** Invariants of the page *)

(** X7. The sentinel never stands beside anything else.  From a page on
    which the paragraph "No employees found." is the whole list or is not
    in it, every sequence of events leads to such a page; so a list that
    shows a card never shows the sentinel. *)
Theorem sentinel_never_beside_cards es p :
  sentinel_alone (employeeListDiv p) ->
  sentinel_alone (employeeListDiv (run es p)) /\
  (forall c, In (CardNode c) (employeeListDiv (run es p)) ->
             no_sentinel (employeeListDiv (run es p))).
Proof.
  intros H. pose proof (run_keeps_sentinel_alone es p H) as Hrun.
  split; [exact Hrun|]. intros c Hin.
  destruct Hrun as [E | Hno]; [|exact Hno].
  rewrite E in Hin. destruct Hin as [Hin | []]. discriminate.
Qed.

Lemma sentinel_never_beside_cards_witness :
  sentinel_alone
    (employeeListDiv
       (run [ TypeName "Ada"; ClickCreate;
              CreateSettles (Response true (Normal (Value (reply ada)))) ]
          (loaded_page [] [trainer]))).
Proof.
  apply (sentinel_never_beside_cards
           [ TypeName "Ada"; ClickCreate;
             CreateSettles (Response true (Normal (Value (reply ada)))) ]
           (loaded_page [] [trainer])).
  left. reflexivity.
Defined.

Lemma fire_all_buttons ready q :
  createEmployeeBtn (fold_left (fun st x => fire (action x) st) ready q)
    = createEmployeeBtn q /\
  assignBtn (fold_left (fun st x => fire (action x) st) ready q) = assignBtn q.
Proof.
  revert q. induction ready as [|x ready IH]; intros q; simpl; [now split|].
  destruct (IH (fire (action x) q)) as [-> ->]. now destruct (action x).
Qed.

Lemma createEmployee_resume_other_trigger o p :
  assignBtn (exec (handleCreateEmployee_resume o) p) = assignBtn p.
Proof.
  destruct o as [e | [|] [[| |body]|e]]; try reflexivity.
  destruct (renderEmployeeCard_cases (employee body)) as [[cs Hcs] | [e He]].
  - pose proof (find_card_app (card_key (employee_id (employee body)))
                  (without_sentinel (employeeListDiv p))
                  (CardNode (card_element (next_handle p) (employee body)
                               (card_template (employee body) cs)))) as Hfind.
    now rewrite (create_success_page body cs p _ Hcs)
      by (apply Hfind; simpl; apply String.eqb_refl).
  - now rewrite (create_failure_to_render_page body e p He).
Qed.

Lemma assignRole_resume_other_trigger o p :
  createEmployeeBtn (exec (handleAssignRole_resume o) p) = createEmployeeBtn p.
Proof.
  destruct o as [e | [|] [[| |body]|e]]; try reflexivity.
  destruct (find_card (card_key (employee_id (employee body))) (employeeListDiv p))
    as [i|] eqn:Hfind.
  - destruct (renderEmployeeCard_cases (employee body)) as [[cs Hcs] | [e He]].
    + now rewrite (assign_success_page body cs p i Hcs Hfind).
    + now rewrite (assign_failure_to_render_page body e p i He Hfind).
  - now rewrite (assign_fallback_page body p Hfind).
Qed.

Lemma fetchEmployees_resume_buttons o p :
  createEmployeeBtn (exec (fetchEmployees_resume o) p) = createEmployeeBtn p /\
  assignBtn (exec (fetchEmployees_resume o) p) = assignBtn p.
Proof.
  destruct o as [e | ok [[| |[|e emps]]|e]]; try (split; reflexivity).
  unfold fetchEmployees_resume, exec, try_catch, bind, await, ret, modify,
    renderEmployeeList, lift, set_cards, console_error.
  cbn [snd fst]. now destruct (render_all (e :: emps)).
Qed.

Lemma fetchRoles_resume_buttons o p :
  createEmployeeBtn (exec (fetchRoles_resume o) p) = createEmployeeBtn p /\
  assignBtn (exec (fetchRoles_resume o) p) = assignBtn p.
Proof. destruct o as [e | ok [[| |roles]|e]]; split; reflexivity. Qed.

Lemma step_keeps_triggers_ok e p : triggers_ok p -> triggers_ok (step e p).
Proof.
  unfold triggers_ok. intros [Hc Ha]. destruct e; simpl; try (split; assumption).
  - unfold click. destruct (disabled (createEmployeeBtn p)); [now split|].
    unfold exec, handleCreateEmployee.
    destruct (trim (newEmployeeNameInput p) =? EmptyString); [now split|].
    split; [now right | exact Ha].
  - unfold click. destruct (disabled (assignBtn p)); [now split|].
    unfold exec, handleAssignRole.
    destruct ((select_value (employeeSelect p) =? EmptyString)
              || (select_value (roleSelect p) =? EmptyString)); [now split|].
    split; [exact Hc | now right].
  - rewrite createEmployee_resume_other_trigger. split; [|exact Ha].
    unfold handleCreateEmployee_resume. rewrite exec_try_finally. now left.
  - rewrite assignRole_resume_other_trigger. split; [exact Hc|].
    unfold handleAssignRole_resume. rewrite exec_try_finally. now left.
  - destruct (fetchEmployees_resume_buttons o p) as [-> ->]. now split.
  - destruct (fetchRoles_resume_buttons o p) as [-> ->]. now split.
  - unfold advance.
    match goal with
    | |- context [fold_left ?f ?r ?q] =>
        destruct (fire_all_buttons r q) as [-> ->]
    end. now split.
Qed.

(** X8. The label of a trigger always tells its state.  From a page on
    which each trigger is either enabled under its label or disabled under
    its busy label, every sequence of events leads to such a page: a
    trigger is never left disabled under its idle label or enabled under
    its busy label. *)
Theorem triggers_stay_consistent es p :
  triggers_ok p -> triggers_ok (run es p).
Proof.
  revert p. induction es as [|e es IH]; intros p H; [exact H|].
  apply (IH (step e p)). now apply step_keeps_triggers_ok.
Qed.

Lemma triggers_stay_consistent_witness :
  triggers_ok
    (run [ TypeName "Ada"; ClickCreate; ClickAssign; Elapse 100%N ]
       (loaded_page [bo] [trainer])).
Proof.
  apply triggers_stay_consistent. split; left; reflexivity.
Defined.

(** ** How a mutation ends *)

(** The lookup that follows the insertion of the new card finds a card. *)
Lemma create_success_index body cs p :
  exists i,
    find_card (card_key (employee_id (employee body)))
      (without_sentinel (employeeListDiv p)
         ++ [CardNode (card_element (next_handle p) (employee body)
                         (card_template (employee body) cs))]) = Some i.
Proof.
  eexists. apply find_card_app. simpl. apply String.eqb_refl.
Qed.

(** X9. How a creation ends is decided by its response.  When the
    response is a success whose body is an object with an
    [assigned_courses] array, the success message is shown in green, the
    name input is emptied and nothing is logged.  In every other case one
    error is caught: its message is shown in red, it is logged once, the
    name typed and the employee selector are as before and no card was
    added: the list is as before, except that a sentinel it showed may
    already have been cleared.  In no case are the role selector and the
    assign trigger touched. *)
Theorem createEmployee_ends_in_success_or_error :
  (forall o p,
     let p' := exec (handleCreateEmployee_resume o) p in
     roleSelect p' = roleSelect p /\ assignBtn p' = assignBtn p) /\
  (forall body cs p,
     assigned_courses (employee body) = Value cs ->
     let p' := exec (handleCreateEmployee_resume
                       (Response true (Normal (Value body)))) p in
     messageArea p'
       = {| textContent := "Successfully created employee: "
                             ++ name (employee body) ++ ".";
            color := "green" |} /\
     newEmployeeNameInput p' = EmptyString /\
     console p' = console p) /\
  (forall o p,
     (forall body, o = Response true (Normal (Value body)) ->
                   ~ has_courses (employee body)) ->
     let p' := exec (handleCreateEmployee_resume o) p in
     exists e,
       messageArea p' = {| textContent := message e; color := "red" |} /\
       console p' = (console p ++ [e])%list /\
       newEmployeeNameInput p' = newEmployeeNameInput p /\
       employeeSelect p' = employeeSelect p /\
       (employeeListDiv p' = employeeListDiv p \/
        employeeListDiv p' = without_sentinel (employeeListDiv p))).
Proof.
  split; [|split].
  - intros o p. cbv zeta.
    destruct (outcome_cases o) as [[e Hearly] | [[body ->] | [body ->]]].
    + now rewrite (create_rejection_page o e p Hearly).
    + destruct (renderEmployeeCard_cases (employee body)) as [[cs Hcs] | [e He]].
      * destruct (create_success_index body cs p) as [i Hi].
        now rewrite (create_success_page body cs p i Hcs Hi).
      * now rewrite (create_failure_to_render_page body e p He).
    + now rewrite create_failure_page.
  - intros body cs p Hcs. cbv zeta.
    destruct (create_success_index body cs p) as [i Hi].
    rewrite (create_success_page body cs p i Hcs Hi). now repeat split.
  - intros o p Hnot. cbv zeta.
    destruct (outcome_cases o) as [[e Hearly] | [[body ->] | [body ->]]].
    + rewrite (create_rejection_page o e p Hearly).
      exists e. repeat split. now left.
    + destruct (renderEmployeeCard_cases (employee body)) as [Hcs | [e He]].
      * exfalso. now apply (Hnot body eq_refl).
      * rewrite (create_failure_to_render_page body e p He).
        exists e. repeat split. now right.
    + rewrite create_failure_page.
      exists (Error (or_else (error body) "Failed to create employee.")).
      repeat split. now left.
Qed.

Lemma createEmployee_ends_in_success_or_error_witness :
  messageArea
    (exec (handleCreateEmployee_resume (Response true (Normal (Value (reply ada)))))
       (with_newEmployeeNameInput "Ada" (loaded_page [] [trainer])))
  = {| textContent := "Successfully created employee: Ada."; color := "green" |} /\
  exists e,
    messageArea
      (exec (handleCreateEmployee_resume (Response true (Normal Null)))
         (with_newEmployeeNameInput "Ada" (loaded_page [] [trainer])))
    = {| textContent := message e; color := "red" |}.
Proof.
  split.
  - exact (proj1 (proj1 (proj2 createEmployee_ends_in_success_or_error)
                    (reply ada) [] _ eq_refl)).
  - destruct (proj2 (proj2 createEmployee_ends_in_success_or_error)
                (Response true (Normal Null))
                (with_newEmployeeNameInput "Ada" (loaded_page [] [trainer])))
      as (e & He & _).
    + intros body H. discriminate.
    + now exists e.
Defined.



(** ** The mark of a recently changed card *)

Lemma fresh_node_le nh nh' n : nh <= nh' -> fresh_node nh n -> fresh_node nh' n.
Proof. destruct n; simpl; [trivial | lia]. Qed.

Lemma fresh_timer_le nh nh' x : nh <= nh' -> fresh_timer nh x -> fresh_timer nh' x.
Proof. unfold fresh_timer. destruct (action x); [trivial | lia]. Qed.

Lemma fresh_nodes_le nh nh' nodes :
  nh <= nh' -> Forall (fresh_node nh) nodes -> Forall (fresh_node nh') nodes.
Proof. intros Hle. apply Forall_impl. intros n. now apply fresh_node_le. Qed.

Lemma fresh_timers_le nh nh' q :
  nh <= nh' -> Forall (fresh_timer nh) q -> Forall (fresh_timer nh') q.
Proof. intros Hle. apply Forall_impl. intros x. now apply fresh_timer_le. Qed.

Lemma fresh_node_mark nh n : fresh_node nh n -> fresh_node nh (mark n).
Proof. now destruct n. Qed.

Lemma fresh_node_unmark nh h n : fresh_node nh n -> fresh_node nh (unmark h n).
Proof. destruct n as [c t|c]; simpl; [trivial|]. now destruct (handle c =? h)%nat. Qed.

Lemma fresh_nodes_replace_at nh nodes i n :
  Forall (fresh_node nh) nodes -> fresh_node nh n ->
  Forall (fresh_node nh) (replace_at i n nodes).
Proof.
  intros H Hn. revert i. induction H as [|m nodes Hm Hrest IH]; intros i; simpl;
    [constructor|].
  destruct i; constructor; auto.
Qed.

Lemma fresh_nodes_mark_at nh nodes i :
  Forall (fresh_node nh) nodes -> Forall (fresh_node nh) (mark_at i nodes).
Proof.
  intros H. unfold mark_at. destruct (nth_error nodes i) as [n|] eqn:Hn; [|exact H].
  apply fresh_nodes_replace_at; [exact H|]. apply fresh_node_mark.
  rewrite Forall_forall in H. apply H. now apply (nth_error_In nodes i).
Qed.

Lemma fresh_nodes_without_sentinel nh nodes :
  Forall (fresh_node nh) nodes -> Forall (fresh_node nh) (without_sentinel nodes).
Proof.
  intros H. unfold without_sentinel. destruct (first_paragraph nodes) as [t|]; [|exact H].
  destruct (t =? sentinel); [constructor | exact H].
Qed.

Lemma fresh_handle_at nh nodes i :
  0 < nh -> Forall (fresh_node nh) nodes -> handle_at i nodes < nh.
Proof.
  intros Hpos H. unfold handle_at.
  destruct (nth_error nodes i) as [[c t|c]|] eqn:Hn; try exact Hpos.
  rewrite Forall_forall in H. apply (H (CardNode c)). now apply (nth_error_In nodes i).
Qed.

Lemma fresh_parse_cards h emps htmls :
  Forall (fresh_node (h + List.length emps)) (parse_cards h emps htmls).
Proof.
  revert h htmls. induction emps as [|e emps IH]; intros h [|x xs]; simpl;
    try constructor.
  - simpl. lia.
  - replace (h + S (List.length emps)) with (S h + List.length emps) by lia.
    apply IH.
Qed.

Lemma handles_fresh_showMessage txt col p :
  handles_fresh p -> handles_fresh (exec (showMessage txt col) p).
Proof.
  intros [Hl Ht]. split; [exact Hl|]. rewrite showMessage_page.
  cbn [timers next_handle with_timers with_messageArea].
  apply Forall_app. split; [exact Ht|]. repeat constructor.
Qed.

Lemma handles_fresh_fire_all ready q :
  handles_fresh q ->
  handles_fresh (fold_left (fun st x => fire (action x) st) ready q).
Proof.
  revert q. induction ready as [|x ready IH]; intros q H; simpl; [exact H|].
  apply IH. destruct H as [Hl Ht]. destruct (action x); split; simpl; auto.
  apply Forall_map. revert Hl. apply Forall_impl.
  intros n. apply fresh_node_unmark.
Qed.

Lemma handles_fresh_createEmployee_resume o p :
  handles_fresh p -> handles_fresh (exec (handleCreateEmployee_resume o) p).
Proof.
  intros H.
  assert (Hshow : forall e,
            handles_fresh
              (with_createEmployeeBtn (idle "Create Employee")
                 (exec (showMessage (message e) "red")
                    (with_console (console p ++ [e]) p)))).
  { intros e. destruct H as [Hl Ht]. split; [exact Hl|].
    cbn. apply Forall_app. split; [exact Ht|]. repeat constructor. }
  destruct (outcome_cases o) as [[e0 Hearly] | [[body ->] | [body ->]]].
  - rewrite (create_rejection_page o e0 p Hearly). apply Hshow.
  - destruct H as [Hl Ht].
    destruct (renderEmployeeCard_cases (employee body)) as [[cs Hcs] | [e He]].
    + pose proof (find_card_app (card_key (employee_id (employee body)))
                    (without_sentinel (employeeListDiv p))
                    (CardNode (card_element (next_handle p) (employee body)
                                 (card_template (employee body) cs)))) as Hfind.
      rewrite (create_success_page body cs p _ Hcs)
        by (apply Hfind; simpl; apply String.eqb_refl).
      assert (Hnodes : Forall (fresh_node (S (next_handle p)))
                (without_sentinel (employeeListDiv p)
                   ++ [CardNode (card_element (next_handle p) (employee body)
                                   (card_template (employee body) cs))])).
      { apply Forall_app. split.
        - apply fresh_nodes_without_sentinel.
          apply (fresh_nodes_le (next_handle p)); [lia | exact Hl].
        - constructor; [simpl; lia | constructor]. }
      split; cbn [employeeListDiv timers next_handle].
      * now apply fresh_nodes_mark_at.
      * apply Forall_app. split.
        { apply (fresh_timers_le (next_handle p)); [lia | exact Ht]. }
        constructor; [exact I|]. constructor; [|constructor].
        unfold fresh_timer. cbn [action].
        apply fresh_handle_at; [lia|]. now apply fresh_nodes_mark_at.
    + rewrite (create_failure_to_render_page body e p He).
      split; cbn [employeeListDiv timers next_handle].
      * now apply fresh_nodes_without_sentinel.
      * apply Forall_app. split; [exact Ht|]. repeat constructor.
  - rewrite create_failure_page. apply Hshow.
Qed.

Lemma handles_fresh_assignRole_resume o p :
  handles_fresh p -> handles_fresh (exec (handleAssignRole_resume o) p).
Proof.
  intros H.
  assert (Hshow : forall e,
            handles_fresh
              (with_assignBtn (idle "Assign Role")
                 (exec (showMessage (message e) "red")
                    (with_console (console p ++ [e]) p)))).
  { intros e. destruct H as [Hl Ht]. split; [exact Hl|].
    cbn. apply Forall_app. split; [exact Ht|]. repeat constructor. }
  destruct (outcome_cases o) as [[e0 Hearly] | [[body ->] | [body ->]]].
  - rewrite (assign_rejection_page o e0 p Hearly). apply Hshow.
  - destruct H as [Hl Ht].
    destruct (find_card (card_key (employee_id (employee body))) (employeeListDiv p))
      as [i|] eqn:Hfind.
    + destruct (renderEmployeeCard_cases (employee body)) as [[cs Hcs] | [e He]].
      * rewrite (assign_success_page body cs p i Hcs Hfind).
        split; cbn [employeeListDiv timers next_handle].
        { apply fresh_nodes_replace_at.
          - apply (fresh_nodes_le (next_handle p)); [lia | exact Hl].
          - simpl. lia. }
        apply Forall_app. split.
        { apply (fresh_timers_le (next_handle p)); [lia | exact Ht]. }
        constructor; [exact I|]. constructor; [|constructor].
        unfold fresh_timer. cbn [action]. lia.
      * rewrite (assign_failure_to_render_page body e p i He Hfind).
        split; cbn [employeeListDiv timers next_handle]; [exact Hl|].
        apply Forall_app. split; [exact Ht|]. repeat constructor.
    + rewrite (assign_fallback_page body p Hfind).
      split; cbn [employeeListDiv timers next_handle]; [exact Hl|].
      apply Forall_app. split; [exact Ht|]. repeat constructor.
  - rewrite assign_failure_page. apply Hshow.
Qed.

Lemma handles_fresh_fetchEmployees_resume o p :
  handles_fresh p -> handles_fresh (exec (fetchEmployees_resume o) p).
Proof.
  intros [Hl Ht].
  assert (Herr : forall q, timers q = timers p -> next_handle q = next_handle p ->
                           handles_fresh (with_employeeListDiv [load_error] q)).
  { intros q Hq Hn. split; cbn [employeeListDiv timers next_handle
                                 with_employeeListDiv].
    - rewrite Hn. repeat constructor.
    - now rewrite Hq, Hn. }
  destruct o as [e | ok [[| |[|e emps]]|e]]; try (now apply Herr).
  - split; [repeat constructor | exact Ht].
  - cbv [fetchEmployees_resume exec try_catch bind await ret modify
           renderEmployeeList lift set_cards console_error fst snd].
    destruct (render_all (e :: emps)) as [htmls|x]; [|now apply Herr].
    split; cbn [employeeListDiv timers next_handle with_next_handle
                with_employeeListDiv with_employeeSelect].
    + apply fresh_parse_cards.
    + apply (fresh_timers_le (next_handle p)); [lia | exact Ht].
Qed.

Lemma handles_fresh_fetchRoles_resume o p :
  handles_fresh p -> handles_fresh (exec (fetchRoles_resume o) p).
Proof. intros H. destruct o as [e | ok [[| |roles]|e]]; exact H. Qed.

Lemma step_keeps_handles_fresh e p : handles_fresh p -> handles_fresh (step e p).
Proof.
  intros H. destruct e; simpl; try exact H.
  - unfold click. destruct (disabled (createEmployeeBtn p)); [exact H|].
    unfold handleCreateEmployee, exec.
    destruct (trim (newEmployeeNameInput p) =? EmptyString); [|exact H].
    now apply handles_fresh_showMessage.
  - unfold click. destruct (disabled (assignBtn p)); [exact H|].
    unfold handleAssignRole, exec.
    destruct ((select_value (employeeSelect p) =? EmptyString)
              || (select_value (roleSelect p) =? EmptyString)); [|exact H].
    now apply handles_fresh_showMessage.
  - now apply handles_fresh_createEmployee_resume.
  - now apply handles_fresh_assignRole_resume.
  - now apply handles_fresh_fetchEmployees_resume.
  - now apply handles_fresh_fetchRoles_resume.
  - unfold advance. apply handles_fresh_fire_all. destruct H as [Hl Ht].
    split; [exact Hl|]. cbn [timers next_handle with_now with_timers].
    apply Forall_forall. intros x Hx. apply filter_In in Hx. destruct Hx as [Hx _].
    rewrite Forall_forall in Ht. now apply Ht.
Qed.

Lemma run_keeps_handles_fresh es p : handles_fresh p -> handles_fresh (run es p).
Proof.
  revert p. induction es as [|e es IH]; intros p H; [exact H|].
  apply (IH (step e p)). now apply step_keeps_handles_fresh.
Qed.

Lemma fire_all_nodes ready q :
  employeeListDiv (fold_left (fun st x => fire (action x) st) ready q)
  = map (unmark_by ready) (employeeListDiv q).
Proof.
  revert q. induction ready as [|x ready IH]; intros q.
  - simpl. symmetry. apply map_id.
  - simpl. rewrite IH. unfold unmark_by at 2. simpl.
    destruct (action x); simpl; [reflexivity|]. now rewrite map_map.
Qed.

Lemma unmark_by_card q c :
  unmark_by q (CardNode c)
  = if existsb (targets (handle c)) q
    then CardNode (unmarked_card c)
    else CardNode c.
Proof.
  revert c. induction q as [|x q IH]; intros c; [reflexivity|].
  change (unmark_by (x :: q) (CardNode c))
    with (unmark_by q
            match action x with
            | RemoveUpdated h => unmark h (CardNode c)
            | ClearMessage => CardNode c
            end).
  simpl existsb. unfold targets at 1.
  destruct (action x) as [|h]; [apply IH|].
  simpl unmark. rewrite (Nat.eqb_sym h (handle c)).
  destruct (handle c =? h)%nat; simpl orb; [|apply IH].
  change (unmark_by q (CardNode (unmarked_card c)) = CardNode (unmarked_card c)).
  rewrite IH. now destruct (existsb (targets (handle (unmarked_card c))) q).
Qed.

Lemma advance_card ms p i c :
  nth_error (employeeListDiv p) i = Some (CardNode c) ->
  nth_error (employeeListDiv (advance ms p)) i
  = Some (if existsb (fun x => targets (handle c) x && is_due (now p + ms)%N x)
               (timers p)
          then CardNode (unmarked_card c)
          else CardNode c).
Proof.
  intros Hn. unfold advance. rewrite fire_all_nodes.
  cbn [employeeListDiv with_now with_timers].
  rewrite nth_error_map, Hn. simpl.
  now rewrite unmark_by_card, existsb_by_due, existsb_filter.
Qed.

Lemma fresh_timers_miss nh t q :
  Forall (fresh_timer nh) q ->
  existsb (fun x => targets nh x && is_due t x) q = false.
Proof.
  induction 1 as [|x q Hx _ IH]; simpl; [reflexivity|]. rewrite IH.
  unfold targets, fresh_timer in *. destruct (action x) as [|h]; [reflexivity|].
  destruct (Nat.eqb_spec h nh); [lia | reflexivity].
Qed.

(** The un-marking scheduled last for the element of the next handle is
    the only timer that reaches it. *)
Lemma own_timer_only nh t q d1 d2 :
  Forall (fresh_timer nh) q ->
  existsb (fun x => targets nh x && is_due t x)
    (q ++ [ {| due := d1; action := ClearMessage |} ]
       ++ [ {| due := d2; action := RemoveUpdated nh |} ])
  = (d2 <=? t)%N.
Proof.
  intros Hq. rewrite !existsb_app, (fresh_timers_miss nh t q Hq).
  unfold targets, is_due. simpl. now rewrite Nat.eqb_refl, orb_false_r.
Qed.

Lemma due_after_delay t d ms : ((t + d <=? t + ms) = negb (ms <? d))%N.
Proof.
  destruct (N.leb_spec (t + d) (t + ms)), (N.ltb_spec ms d); simpl; lia.
Qed.

Lemma assign_mark_node body cs p i ms :
  assigned_courses (employee body) = Value cs ->
  find_card (card_key (employee_id (employee body))) (employeeListDiv p) = Some i ->
  handles_fresh p ->
  let fresh :=
    CardNode (card_element (next_handle p) (employee body)
                (card_template (employee body) cs)) in
  let p' := advance ms (exec (handleAssignRole_resume (Response true (Normal (Value body)))) p) in
  nth_error (employeeListDiv p') i
  = Some (if (ms <? 2000)%N then mark fresh else fresh).
Proof.
  intros Hcs Hfind [_ Ht] fresh p'. subst p' fresh.
  destruct (find_card_some _ _ _ Hfind) as [Hlt _].
  rewrite (advance_card ms _ i
             {| handle := next_handle p;
                elem_id := card_key (employee_id (employee body));
                first_p := "Name: " ++ name (employee body) ++ " (ID: "
                             ++ employee_id (employee body) ++ ")";
                outerHTML := card_template (employee body) cs;
                updated := true |}).
  - rewrite (assign_success_page body cs p i Hcs Hfind).
    cbn [timers now handle]. rewrite (own_timer_only _ _ _ _ _ Ht), due_after_delay.
    now destruct (ms <? 2000)%N.
  - rewrite (assign_success_page body cs p i Hcs Hfind). cbn [employeeListDiv].
    now apply nth_error_replace_at_eq.
Qed.

(** X11. The mark of an assignment lasts two seconds.  On a page whose
    handles are in order (every page the script reaches), after the card at
    position [i] was replaced by a successful assignment and [ms]
    milliseconds have passed with no other event, that position holds the
    new card (a new element, with the markup of the returned employee under
    its key), and that card carries the class [updated] when [ms < 2000]
    and no longer carries it from 2000 on: no timer set for an earlier
    card, not even for the card it replaced, takes the class away
    before. *)
Theorem assign_mark_lasts_two_seconds body cs p i ms :
  assigned_courses (employee body) = Value cs ->
  find_card (card_key (employee_id (employee body))) (employeeListDiv p) = Some i ->
  handles_fresh p ->
  let p' := advance ms (exec (handleAssignRole_resume (Response true (Normal (Value body)))) p) in
  exists c,
    nth_error (employeeListDiv p') i = Some (CardNode c) /\
    outerHTML c = card_template (employee body) cs /\
    elem_id c = card_key (employee_id (employee body)) /\
    handle c = next_handle p /\
    (ms < 2000 -> updated c = true)%N /\
    (2000 <= ms -> updated c = false)%N.
Proof.
  intros Hcs Hfind Hfresh p'.
  pose proof (assign_mark_node body cs p i ms Hcs Hfind Hfresh) as Hnode.
  cbv zeta in Hnode. fold p' in Hnode.
  destruct (N.ltb_spec ms 2000) as [Hlt | Hge];
    eexists; (split; [exact Hnode|]); cbn; repeat split; intros; try reflexivity; lia.
Qed.

Lemma assign_mark_lasts_two_seconds_witness :
  let p := run [ ClickAssign;
                 AssignSettles (Response true (Normal (Value (reply bo))));
                 Elapse 1500%N; ClickAssign ]
             (loaded_page [bo_before] [trainer]) in
  let after ms :=
    advance ms
      (exec (handleAssignRole_resume (Response true (Normal (Value (reply bo_before))))) p) in
  (exists c, nth_error (employeeListDiv (after 1999%N)) 0 = Some (CardNode c) /\
             outerHTML c = card_template bo_before [] /\
             handle c = 2 /\ updated c = true) /\
  (exists c, nth_error (employeeListDiv (after 2000%N)) 0 = Some (CardNode c) /\
             outerHTML c = card_template bo_before [] /\
             handle c = 2 /\ updated c = false).
Proof.
  intros p after.
  assert (Hfresh : handles_fresh p).
  { apply run_keeps_handles_fresh.
    apply (run_keeps_handles_fresh
             [ Loaded;
               EmployeesSettle (Response true (Normal (Value [bo_before])));
               RolesSettle (Response true (Normal (Value [trainer]))) ] initial_page).
    split; constructor. }
  split.
  - destruct (assign_mark_lasts_two_seconds (reply bo_before) [] p 0 1999%N
                eq_refl eq_refl Hfresh) as (c & Hc & Hhtml & _ & Hh & Hon & _).
    exists c. repeat split; [exact Hc | exact Hhtml | exact Hh | apply Hon; lia].
  - destruct (assign_mark_lasts_two_seconds (reply bo_before) [] p 0 2000%N
                eq_refl eq_refl Hfresh) as (c & Hc & Hhtml & _ & Hh & _ & Hoff).
    exists c. repeat split; [exact Hc | exact Hhtml | exact Hh | apply Hoff; lia].
Defined.

Lemma create_mark_node body cs p ms :
  assigned_courses (employee body) = Value cs ->
  find_card (card_key (employee_id (employee body)))
    (without_sentinel (employeeListDiv p)) = None ->
  handles_fresh p ->
  let fresh :=
    CardNode (card_element (next_handle p) (employee body)
                (card_template (employee body) cs)) in
  let p' := advance ms (exec (handleCreateEmployee_resume (Response true (Normal (Value body)))) p) in
  nth_error (employeeListDiv p') (List.length (without_sentinel (employeeListDiv p)))
  = Some (if (ms <? 2000)%N then mark fresh else fresh).
Proof.
  intros Hcs Hnone [_ Ht] fresh p'. subst p' fresh.
  remember (without_sentinel (employeeListDiv p)) as shown eqn:Hshown.
  assert (Hfind : find_card (card_key (employee_id (employee body)))
                    (shown ++ [CardNode (card_element (next_handle p) (employee body)
                                           (card_template (employee body) cs))])
                  = Some (List.length shown)).
  { rewrite find_card_app by (simpl; apply String.eqb_refl). now rewrite Hnone. }
  assert (Hnodes : forall n, mark_at (List.length shown) (shown ++ [n])
                             = (shown ++ [mark n])%list).
  { intros n. unfold mark_at. rewrite nth_error_app2, Nat.sub_diag by lia. simpl.
    clear. induction shown as [|m shown IH]; simpl; [reflexivity | now rewrite IH]. }
  pose proof (create_success_page body cs p (List.length shown) Hcs) as Hpage.
  rewrite <- Hshown in Hpage. specialize (Hpage Hfind). cbv zeta in Hpage.
  rewrite Hnodes in Hpage.
  rewrite (advance_card ms _ (List.length shown)
             {| handle := next_handle p;
                elem_id := card_key (employee_id (employee body));
                first_p := "Name: " ++ name (employee body) ++ " (ID: "
                             ++ employee_id (employee body) ++ ")";
                outerHTML := card_template (employee body) cs;
                updated := true |}).
  - rewrite Hpage. cbn [timers now handle].
    replace (handle_at (List.length shown)
               (shown ++ [mark (CardNode (card_element (next_handle p) (employee body)
                                            (card_template (employee body) cs)))]))
      with (next_handle p)
      by (unfold handle_at; now rewrite nth_error_app2, Nat.sub_diag by lia).
    rewrite (own_timer_only _ _ _ _ _ Ht), due_after_delay.
    now destruct (ms <? 2000)%N.
  - rewrite Hpage. cbn [employeeListDiv].
    now rewrite nth_error_app2, Nat.sub_diag by lia.
Qed.

(** X12. The mark of a creation lasts two seconds.  On a page whose
    handles are in order and whose list, the sentinel apart, holds no card
    under the key of the returned id, after a successful creation and [ms]
    milliseconds with no other event the appended card, at the end of the
    list, carries the class [updated] when [ms < 2000] and no longer
    carries it from 2000 on. *)
Theorem create_mark_lasts_two_seconds body cs p ms :
  assigned_courses (employee body) = Value cs ->
  find_card (card_key (employee_id (employee body)))
    (without_sentinel (employeeListDiv p)) = None ->
  handles_fresh p ->
  let p' := advance ms (exec (handleCreateEmployee_resume (Response true (Normal (Value body)))) p) in
  exists c,
    nth_error (employeeListDiv p') (List.length (without_sentinel (employeeListDiv p)))
    = Some (CardNode c) /\
    outerHTML c = card_template (employee body) cs /\
    elem_id c = card_key (employee_id (employee body)) /\
    handle c = next_handle p /\
    (ms < 2000 -> updated c = true)%N /\
    (2000 <= ms -> updated c = false)%N.
Proof.
  intros Hcs Hnone Hfresh p'.
  pose proof (create_mark_node body cs p ms Hcs Hnone Hfresh) as Hnode.
  cbv zeta in Hnode. fold p' in Hnode.
  destruct (N.ltb_spec ms 2000) as [Hlt | Hge];
    eexists; (split; [exact Hnode|]); cbn; repeat split; intros; try reflexivity; lia.
Qed.

Lemma create_mark_lasts_two_seconds_witness :
  let p := with_newEmployeeNameInput "Ada" (loaded_page [bo] [trainer]) in
  let after ms :=
    advance ms
      (exec (handleCreateEmployee_resume (Response true (Normal (Value (reply ada))))) p) in
  (exists c, nth_error (employeeListDiv (after 1999%N)) 1 = Some (CardNode c) /\
             outerHTML c = card_template ada [] /\
             handle c = 1 /\ updated c = true) /\
  (exists c, nth_error (employeeListDiv (after 2000%N)) 1 = Some (CardNode c) /\
             outerHTML c = card_template ada [] /\
             handle c = 1 /\ updated c = false).
Proof.
  intros p after.
  assert (Hfresh : handles_fresh p) by (split; repeat constructor).
  split.
  - destruct (create_mark_lasts_two_seconds (reply ada) [] p 1999%N
                eq_refl eq_refl Hfresh) as (c & Hc & Hhtml & _ & Hh & Hon & _).
    exists c. repeat split; [exact Hc | exact Hhtml | exact Hh | apply Hon; lia].
  - destruct (create_mark_lasts_two_seconds (reply ada) [] p 2000%N
                eq_refl eq_refl Hfresh) as (c & Hc & Hhtml & _ & Hh & _ & Hoff).
    exists c. repeat split; [exact Hc | exact Hhtml | exact Hh | apply Hoff; lia].
Defined.

(** ** Creation and lookup *)









